(** * appcenter-cli: the user profile store ([src/util/profile/profile.ts])

    A shallow embedding of the profile module and the properties of it that
    the specification states.

    - [JS]: the JavaScript values the module handles, truthiness, property
      access, [Object.assign], and the value-level effect of
      [JSON.stringify] / [JSON.parse].
    - [RegExp]: a backtracking matcher for the fragment of regular
      expressions that [validApp] uses, and [toDefaultApp].
    - the profile store: the process state (heap of [ProfileImpl] objects,
      the [currentProfile] cache, the profile file, the token store, a
      trace of the calls made to the outside) and the module's functions
      in a state-and-exception monad.

    The facts follow the definitions: [ToDefaultAppFacts],
    [ProfileStoreFacts], and [Scenarios] on concrete processes. *)

From Stdlib Require Import ZArith Ascii String List Bool Lia.
From Stdlib Require Import Floats.SpecFloat.
From stdpp Require Import base option list strings gmap.

Local Open Scope string_scope.
Set Warnings "-register-all".

(* ===================================================================== *)
(** * JavaScript values                                                   *)
(* ===================================================================== *)

Module JS.

(** A JS number is an IEEE-754 binary64; only its class (zero, NaN, ...)
    matters to this module, so the Standard Library's [spec_float] carries
    it. *)
Definition number := spec_float.

(** Plain data values: what [JSON.parse] produces and what the API hands
    to [saveUser], plus [undefined].  An object is the finite map of its
    own properties. *)
Inductive value : Type :=
| VUndefined
| VNull
| VBool (b : bool)
| VNum (n : number)
| VStr (s : string)
| VArr (xs : list value)
| VObj (ps : gmap string value).

Abbreviation object := (gmap string value).

(** ToBoolean: [false], [0], [-0], [NaN], [""], [null] and [undefined] are
    falsy; everything else, every object and array included, is truthy. *)
Definition truthy (v : value) : bool :=
  match v with
  | VUndefined | VNull => false
  | VBool b => b
  | VNum (S754_zero _) | VNum S754_nan => false
  | VNum _ => true
  | VStr s => negb (String.eqb s "")
  | VArr _ | VObj _ => true
  end.

(** [a || b] *)
Definition logical_or (a b : value) : value := if truthy a then a else b.

(** [o[k]] on an object: the property's value, [undefined] when absent. *)
Definition get_prop (o : object) (k : string) : value :=
  default VUndefined (o !! k).

(** [Object.assign(target, ...sources)]: the properties of each source in
    turn are set on the target, a later one overwriting an earlier one. *)
Definition assign (target : object) (sources : list object) : object :=
  fold_left (fun acc source => source ∪ acc) sources target.

(** ** JSON *)

(** A JSON document. *)
Inductive json : Type :=
| JNull
| JBool (b : bool)
| JNum (n : number)
| JStr (s : string)
| JArr (xs : list json)
| JObj (ps : gmap string json).

(** SerializeJSONProperty, read through the parser: the document that the
    text [JSON.stringify(v)] denotes, [None] where [JSON.stringify] yields
    [undefined].  Non-finite numbers become [null], [-0] becomes [0], an
    [undefined] property is left out and an [undefined] array element
    becomes [null]. *)
Fixpoint SerializeJSONProperty (v : value) : option json :=
  match v with
  | VUndefined => None
  | VNull => Some JNull
  | VBool b => Some (JBool b)
  | VNum S754_nan | VNum (S754_infinity _) => Some JNull
  | VNum (S754_zero _) => Some (JNum (S754_zero false))
  | VNum n => Some (JNum n)
  | VStr s => Some (JStr s)
  | VArr xs =>
      Some (JArr (map (fun x => default JNull (SerializeJSONProperty x)) xs))
  | VObj ps => Some (JObj (omap SerializeJSONProperty ps))
  end.

(** SerializeJSONObject: [JSON.stringify] of an object, which is never
    [undefined]. *)
Definition SerializeJSONObject (o : object) : json :=
  JObj (omap SerializeJSONProperty o).

(** The value [JSON.parse] builds from a document. *)
Fixpoint of_json (j : json) : value :=
  match j with
  | JNull => VNull
  | JBool b => VBool b
  | JNum n => VNum n
  | JStr s => VStr s
  | JArr xs => VArr (map of_json xs)
  | JObj ps => VObj (of_json <$> ps)
  end.

(** What a property holding [v] reads as once its object went through
    [JSON.stringify] and [JSON.parse]. *)
Definition through_JSON (v : value) : value :=
  match SerializeJSONProperty v with
  | Some j => of_json j
  | None => VUndefined
  end.

End JS.

Import JS.

(* ===================================================================== *)
(** * Regular expressions: the fragment [validApp] is written in          *)
(* ===================================================================== *)

Module RegExp.

(** A JS string is matched code unit by code unit; the units are carried
    by [ascii], which covers every character the class below names. *)
Definition code_units (s : string) : list ascii := list_ascii_of_string s.
Definition of_code_units (l : list ascii) : string := string_of_list_ascii l.

(** One entry of a character class: a range [a-z] or a single character. *)
Inductive class_atom : Type :=
| Range (lo hi : ascii)
| Single (c : ascii).

Definition class := list class_atom.

Definition atom_has (a : class_atom) (c : ascii) : bool :=
  match a with
  | Range lo hi =>
      (N_of_ascii lo <=? N_of_ascii c)%N && (N_of_ascii c <=? N_of_ascii hi)%N
  | Single c' => Ascii.eqb c' c
  end.

Definition class_has (cls : class) (c : ascii) : bool :=
  existsb (fun a => atom_has a c) cls.

(** One term of a pattern: an escaped literal character, or a capture
    group around a class under a greedy bounded quantifier,
    [([...]{lo,hi})]. *)
Inductive term : Type :=
| Literal (c : ascii)
| Group (cls : class) (lo hi : nat).

(** A pattern [^ t1 t2 ... tn $], anchored at both ends (no [m] flag, so
    [^] and [$] are the two ends of the input). *)
Definition pattern := list term.

(** How many leading code units of [s] lie in the class. *)
Fixpoint run (cls : class) (s : list ascii) : nat :=
  match s with
  | c :: s' => if class_has cls c then S (run cls s') else 0
  | [] => 0
  end.

(** The greedy quantifier's backtracking: try [k] repetitions, then [k-1],
    ... down to [lo], and keep the first count under which the rest of the
    pattern matches. *)
Fixpoint greedy {A : Type} (rest : nat -> option A) (lo k : nat) : option A :=
  if (k <? lo)%nat then None
  else
    match rest k with
    | Some r => Some r
    | None =>
        match k with
        | 0 => None
        | S k' => greedy rest lo k'
        end
    end.

(** Match the pattern against the whole of [s]; on success, the captures of
    its groups in order. *)
Fixpoint exec (p : pattern) (s : list ascii) : option (list (list ascii)) :=
  match p with
  | [] =>
      match s with
      | [] => Some []
      | _ :: _ => None
      end
  | Literal c :: p' =>
      match s with
      | c' :: s' => if Ascii.eqb c c' then exec p' s' else None
      | [] => None
      end
  | Group cls lo hi :: p' =>
      greedy (fun k => cons (take k s) <$> exec p' (drop k s))
             lo (Nat.min hi (run cls s))
  end.

(** [s.match(p)] for a pattern without the [g] flag: [null], or the array
    whose element 0 is the matched text and whose elements 1.. are the
    captures. *)
Definition String_match (s : string) (p : pattern) : option (list string) :=
  (fun caps => s :: map of_code_units caps) <$> exec p (code_units s).

End RegExp.

Import RegExp.

(* ===================================================================== *)
(** * [toDefaultApp]                                                      *)
(* ===================================================================== *)

Record DefaultApp : Type := mkDefaultApp {
  ownerName : string;
  appName : string;
  identifier : string;
}.

(** [[a-zA-Z0-9-_.]]: after the range [0-9] the dash is a literal dash. *)
Definition validChars : class :=
  [ Range "a" "z"; Range "A" "Z"; Range "0" "9";
    Single "-"; Single "_"; Single "." ]%char.

(** [/^([a-zA-Z0-9-_.]{1,100})\/([a-zA-Z0-9-_.]{1,100})$/] *)
Definition validApp : pattern :=
  [ Group validChars 1 100; Literal "/"%char; Group validChars 1 100 ].

(** [toDefaultApp(app)]; [None] is [null]. *)
Definition toDefaultApp (app : string) : option DefaultApp :=
  match String_match app validApp with
  | Some [_; m1; m2] =>
      Some {| ownerName := m1;
              appName := m2;
              identifier := m1 ++ "/" ++ m2 |}
  | _ => None
  end.

(** The object [toDefaultApp] returns, as a value. *)
Definition DefaultApp_value (d : DefaultApp) : value :=
  VObj {[ "ownerName" := VStr (ownerName d);
          "appName" := VStr (appName d);
          "identifier" := VStr (identifier d) ]}.

(* ===================================================================== *)
(** * The profile store                                                   *)
(* ===================================================================== *)

(** ** Exceptions and results *)

Inductive error : Type :=
| SystemError (code : string)   (* a Node [fs] error; [err.code] is set *)
| SyntaxError                   (* [JSON.parse] on text that is not JSON *)
| TypeError                     (* a property read on [null]/[undefined] *)
| StoreError (reason : value).  (* a rejection of the token store's own *)

(** [err.code === c] *)
Definition code_is (err : error) (c : string) : bool :=
  match err with
  | SystemError code => String.eqb code c
  | _ => false
  end.

(** A call returns, or throws; an [async] function resolves, or rejects. *)
Inductive result (A : Type) : Type :=
| Ok (a : A)
| Throw (err : error).
Arguments Ok {A} a.
Arguments Throw {A} err.

(** ** The token store (the module [../token-store])

    It is taken as a parameter: any state type with the three operations
    of the collaborator's contract, each of which resolves or rejects and
    may change the store either way. *)
Class TokenStore : Type := {
  store : Type;
  store_get : value -> store -> result value * store;
  store_set : value -> value -> store -> result unit * store;
  store_remove : value -> store -> result unit * store;
}.

(** ** The profile file

    [getProfileFilename()] joins two constants of [../misc]; the module
    touches this one path only, so the file system is the state of that
    path.  The calls to [debug] only log and are left out. *)

(** The text of a file: the JSON document it denotes, or text that
    [JSON.parse] rejects. *)
Inductive text : Type :=
| Json (doc : json)
| NotJson.

(** What is at the path. *)
Inductive node : Type :=
| Missing                 (* no such file or directory *)
| File (data : text)      (* a regular file *)
| Directory.              (* the path exists and is not a regular file *)

(** The calls the module makes on the path. *)
Inductive call : Type := Stat | Read | Write | Mkdirp | Unlink.

(** What the process did to the outside, oldest first. *)
Inductive event : Type :=
| EFs (c : call)
| ETokenGet (key : value)
| ETokenSet (key token : value)
| ETokenRemove (key : value).

(** ** Profile objects *)

Record ProfileImpl : Type := mkProfileImpl {
  userId : value;
  userName : value;
  displayName : value;
  email : value;
  environment : value;
  defaultApp : value;
}.

(** A reference to a [ProfileImpl] object: its index in the heap. *)
Definition ref := nat.

Section ProfileStore.
Context `{TS : TokenStore}.

(** ** The state of the process and its surroundings *)

Record world : Type := mkWorld {
  heap : list ProfileImpl;           (* the [ProfileImpl] objects created *)
  currentProfile : option ref;       (* [let currentProfile: Profile = null] *)
  disk : node;                       (* the profile file *)
  fault : call -> option string;     (* the calls the system refuses (no
                                        permission, read-only disk, ...),
                                        each with its [err.code] *)
  tokens : store;                    (* the token store *)
  trace : list event;
}.

Definition with_heap (h : list ProfileImpl) (w : world) : world :=
  mkWorld h (currentProfile w) (disk w) (fault w) (tokens w) (trace w).
Definition with_currentProfile (c : option ref) (w : world) : world :=
  mkWorld (heap w) c (disk w) (fault w) (tokens w) (trace w).
Definition with_disk (d : node) (w : world) : world :=
  mkWorld (heap w) (currentProfile w) d (fault w) (tokens w) (trace w).
Definition with_tokens (s : store) (w : world) : world :=
  mkWorld (heap w) (currentProfile w) (disk w) (fault w) s (trace w).
Definition with_trace (t : list event) (w : world) : world :=
  mkWorld (heap w) (currentProfile w) (disk w) (fault w) (tokens w) t.

(** A new process on the same machine: nothing allocated, nothing cached,
    nothing done yet. *)
Definition restart (w : world) : world :=
  mkWorld [] None (disk w) (fault w) (tokens w) [].

(** ** The monad: state and exceptions *)

Definition M (A : Type) : Type := world -> result A * world.

Definition ret {A} (a : A) : M A := fun w => (Ok a, w).
Definition throw {A} (err : error) : M A := fun w => (Throw err, w).
Definition bind {A B} (m : M A) (k : A -> M B) : M B :=
  fun w =>
    match m w with
    | (Ok a, w') => k a w'
    | (Throw err, w') => (Throw err, w')
    end.
(** [try { m } catch (err) { handler }] *)
Definition try_catch {A} (m : M A) (handler : error -> M A) : M A :=
  fun w =>
    match m w with
    | (Ok a, w') => (Ok a, w')
    | (Throw err, w') => handler err w'
    end.

Notation "x <- m ;; k" := (bind m (fun x => k))
  (at level 100, m at next level, right associativity).
Notation "m ;; k" := (bind m (fun _ => k))
  (at level 100, right associativity).

Definition log (e : event) : M unit :=
  fun w => (Ok tt, with_trace (trace w ++ [e]) w).

(** ** [fs] and [mkdirp] on the profile path *)

(** A system call: recorded, refused with [fault]'s code when the system
    refuses it, otherwise decided by the node. *)
Definition sys {A} (c : call) (body : node -> M A) : M A :=
  log (EFs c) ;;
  fun w =>
    match fault w c with
    | Some code => (Throw (SystemError code), w)
    | None => body (disk w) w
    end.

Definition write_node (d : node) : M unit :=
  fun w => (Ok tt, with_disk d w).

(** [fs.statSync(filename).isFile()] *)
Definition fs_statSync_isFile : M bool :=
  sys Stat (fun n =>
    match n with
    | Missing => throw (SystemError "ENOENT")
    | File _ => ret true
    | Directory => ret false
    end).

(** [fs.readFileSync(profilePath, "utf8")] *)
Definition fs_readFileSync : M text :=
  sys Read (fun n =>
    match n with
    | Missing => throw (SystemError "ENOENT")
    | File data => ret data
    | Directory => throw (SystemError "EISDIR")
    end).

(** [fs.writeFileSync(path, data, { encoding: "utf8" })]: creates the file
    or replaces its contents. *)
Definition fs_writeFileSync (data : text) : M unit :=
  sys Write (fun n =>
    match n with
    | Missing | File _ => write_node (File data)
    | Directory => throw (SystemError "EISDIR")
    end).

(** [mkdirp.sync(getProfileDir())]: the directory is not part of the
    state; the call can only be refused. *)
Definition mkdirp_sync : M unit :=
  sys Mkdirp (fun _ => ret tt).

(** [fs.unlinkSync(path)]; on a directory the error is [EISDIR] or [EPERM]
    by platform, and in either case not [ENOENT]. *)
Definition fs_unlinkSync : M unit :=
  sys Unlink (fun n =>
    match n with
    | Missing => throw (SystemError "ENOENT")
    | File _ => write_node Missing
    | Directory => throw (SystemError "EISDIR")
    end).

(** ** [JSON] on file text *)

Definition JSON_stringify (o : object) : text := Json (SerializeJSONObject o).

Definition JSON_parse (t : text) : M value :=
  match t with
  | Json doc => ret (of_json doc)
  | NotJson => throw SyntaxError
  end.

(** ** The token store's calls, awaited *)

Definition tokenStore_get (key : value) : M value :=
  log (ETokenGet key) ;;
  fun w => let (r, s) := store_get key (tokens w) in (r, with_tokens s w).

Definition tokenStore_set (key token : value) : M unit :=
  log (ETokenSet key token) ;;
  fun w => let (r, s) := store_set key token (tokens w) in (r, with_tokens s w).

Definition tokenStore_remove (key : value) : M unit :=
  log (ETokenRemove key) ;;
  fun w => let (r, s) := store_remove key (tokens w) in (r, with_tokens s w).

(** ** Objects on the heap *)

(** [v.k] for [v : any]: a [TypeError] on [null] and [undefined], the own
    property on an object, [undefined] on the other values (none of the
    names read below is a property of their prototypes). *)
Definition member (v : value) (k : string) : M value :=
  match v with
  | VUndefined | VNull => throw TypeError
  | VObj o => ret (get_prop o k)
  | _ => ret VUndefined
  end.

Definition new (p : ProfileImpl) : M ref :=
  fun w => (Ok (length (heap w)), with_heap (heap w ++ [p]) w).

(** Reading [this]; a reference to nothing is JS's [undefined] receiver. *)
Definition deref (this : ref) : M ProfileImpl :=
  fun w =>
    match heap w !! this with
    | Some p => (Ok p, w)
    | None => (Throw TypeError, w)
    end.

(** ** [class ProfileImpl]

    The getter [endpoint] only applies [environments], a function of
    another module, to the field [environment]; it is left out. *)

(** [constructor(fileContents: any)] *)
Definition ProfileImpl_constructor (fileContents : value) : M ref :=
  userId0 <- member fileContents "userId" ;;
  userId1 <- (if truthy userId0 then ret userId0
              else member fileContents "id") ;;
  userName0 <- member fileContents "userName" ;;
  userName1 <- (if truthy userName0 then ret userName0
                else member fileContents "name") ;;
  displayName1 <- member fileContents "displayName" ;;
  email1 <- member fileContents "email" ;;
  environment1 <- member fileContents "environment" ;;
  defaultApp1 <- member fileContents "defaultApp" ;;
  new {| userId := userId1;
         userName := userName1;
         displayName := displayName1;
         email := email1;
         environment := environment1;
         defaultApp := defaultApp1 |}.

(** [get accessTokenId()] *)
Definition accessTokenId (this : ref) : M value :=
  p <- deref this ;;
  entry <- tokenStore_get (userName p) ;;
  accessToken <- member entry "accessToken" ;;
  member accessToken "id".

(** [get accessToken()] *)
Definition accessToken (this : ref) : M value :=
  p <- deref this ;;
  entry <- tokenStore_get (userName p) ;;
  accessToken <- member entry "accessToken" ;;
  member accessToken "token".

(** [save()] *)
Definition save (this : ref) : M ref :=
  p <- deref this ;;
  let profile : object :=
    {[ "userId" := userId p;
       "userName" := userName p;
       "displayName" := displayName p;
       "email" := email p;
       "environment" := environment p;
       "defaultApp" := defaultApp p ]} in
  mkdirp_sync ;;
  fs_writeFileSync (JSON_stringify profile) ;;
  ret this.

(** [setAccessToken(token)] *)
Definition setAccessToken (this : ref) (token : value) : M ref :=
  p <- deref this ;;
  tokenStore_set (userName p) token ;;
  ret this.

(** [async logout()] *)
Definition logout (this : ref) : M unit :=
  p <- deref this ;;
  tokenStore_remove (userName p) ;;
  try_catch fs_unlinkSync (fun err =>
    if negb (code_is err "ENOENT") then throw err else ret tt).

(** ** The module's functions *)

(** [fileExists(filename)] *)
Definition fileExists : M bool :=
  try_catch fs_statSync_isFile (fun err =>
    if negb (code_is err "ENOENT") then throw err else ret false).

(** [loadProfile()]; [None] is [null]. *)
Definition loadProfile : M (option ref) :=
  found <- fileExists ;;
  if negb found then ret None
  else
    profileContents <- fs_readFileSync ;;
    profile <- JSON_parse profileContents ;;
    r <- ProfileImpl_constructor profile ;;
    ret (Some r).

Definition read_currentProfile : M (option ref) :=
  fun w => (Ok (currentProfile w), w).
Definition write_currentProfile (c : option ref) : M unit :=
  fun w => (Ok tt, with_currentProfile c w).

(** [getUser()] *)
Definition getUser : M (option ref) :=
  cached <- read_currentProfile ;;
  match cached with
  | None => loaded <- loadProfile ;; write_currentProfile loaded
  | Some _ => ret tt
  end ;;
  read_currentProfile.

(** [saveUser(user, token, environment)] *)
Definition saveUser (user : object) (token : value) (environment : value)
  : M ref :=
  tokenStore_set (get_prop user "name") token ;;
  profile <- ProfileImpl_constructor
               (VObj (assign ∅ [user; {[ "environment" := environment ]}])) ;;
  save profile ;;
  ret profile.

(** [async deleteUser()] *)
Definition deleteUser : M unit :=
  profile <- getUser ;;
  match profile with
  | Some p => logout p
  | None => ret tt
  end.

End ProfileStore.

Arguments world {TS}.
Arguments M {TS} A.

(** ** Two token stores *)

(** Modelled from the spec: the token store collaborator
    ([get(key)] resolves to [{accessToken}], [set(key, tokenValue)] and
    [remove(key)] resolve to nothing; "keyed by userName").  This one keeps
    the tokens in memory under string keys, resolves [get] of an unknown
    key to [null], and rejects a key that is not a string. *)
Definition memory_store : TokenStore := {|
  store := gmap string value;
  store_get key s :=
    match key with
    | VStr k =>
        match s !! k with
        | Some token => (Ok (VObj {[ "accessToken" := token ]}), s)
        | None => (Ok VNull, s)
        end
    | _ => (Throw (StoreError key), s)
    end;
  store_set key token s :=
    match key with
    | VStr k => (Ok tt, <[ k := token ]> s)
    | _ => (Throw (StoreError key), s)
    end;
  store_remove key s :=
    match key with
    | VStr k => (Ok tt, delete k s)
    | _ => (Throw (StoreError key), s)
    end;
|}.

(** Modelled from the spec: a token store whose backend cannot be reached
    ("token-store faults propagate as rejected asynchronous results");
    every call rejects. *)
Definition offline_store : TokenStore := {|
  store := unit;
  store_get _ s := (Throw (StoreError (VStr "offline")), s);
  store_set _ _ s := (Throw (StoreError (VStr "offline")), s);
  store_remove _ s := (Throw (StoreError (VStr "offline")), s);
|}.

(** A system that refuses nothing. *)
Definition no_fault : call -> option string := fun _ => None.


(* ===================================================================== *)
(** * Facts: [toDefaultApp]                                               *)
(* ===================================================================== *)

Module ToDefaultAppFacts.

(** ** The specification's reading of the pattern *)

(** The characters the specification lists: [A-Z], [a-z], [0-9], dash,
    underscore and dot. *)
Definition segment_alphabet : list ascii :=
  list_ascii_of_string
    "ABCDEFGHIJKLMNOPQRSTUVWXYZabcdefghijklmnopqrstuvwxyz0123456789-_.".

(** "Each segment matches [[A-Za-z0-9-_.]] and is 1-100 characters long." *)
Definition segment (s : string) : Prop :=
  (1 <= String.length s <= 100)%nat ∧
  Forall (fun c => c ∈ segment_alphabet) (code_units s).

(** [app] matches [^[A-Za-z0-9-_.]{1,100}/[A-Za-z0-9-_.]{1,100}$], with
    [owner] the segment before the slash and [name] the one after. *)
Definition owner_slash_app (app owner name : string) : Prop :=
  app = owner ++ "/" ++ name ∧ segment owner ∧ segment name.

(** ** Strings and their code units *)

Lemma code_units_app (s t : string) :
  code_units (s ++ t) = (code_units s ++ code_units t)%list.
Proof.
  induction s as [|c s IH]; simpl; [done|]. unfold code_units in *.
  simpl. by rewrite IH.
Qed.

Lemma code_units_length (s : string) :
  length (code_units s) = String.length s.
Proof. induction s as [|c s IH]; simpl; [done|]. by f_equal. Qed.

Lemma of_code_units_code_units (s : string) : of_code_units (code_units s) = s.
Proof. apply string_of_list_ascii_of_string. Qed.

Lemma code_units_of_code_units (l : list ascii) :
  code_units (of_code_units l) = l.
Proof. apply list_ascii_of_string_of_list_ascii. Qed.

(** ** The class *)

Lemma validChars_alphabet (c : ascii) :
  class_has validChars c = bool_decide (c ∈ segment_alphabet).
Proof.
  destruct c as [[] [] [] [] [] [] [] []]; vm_compute; reflexivity.
Qed.

Lemma validChars_spec (c : ascii) :
  class_has validChars c = true ↔ c ∈ segment_alphabet.
Proof. rewrite validChars_alphabet. apply bool_decide_eq_true. Qed.

Lemma slash_not_valid : class_has validChars "/"%char = false.
Proof. reflexivity. Qed.

(** ** The greedy quantifier *)

Section Greedy.
Context {A : Type} (rest : nat -> option A).

Lemma greedy_found (lo k : nat) (r : A) :
  greedy rest lo k = Some r →
  ∃ j, (lo <= j <= k)%nat ∧ rest j = Some r ∧
       ∀ i, (j < i <= k)%nat → rest i = None.
Proof.
  induction k as [|k IH]; simpl.
  - destruct (0 <? lo)%nat eqn:Hlo; [done|].
    apply Nat.ltb_ge in Hlo. destruct (rest 0) eqn:H0; [|done].
    intros [= ->]. exists 0%nat. repeat split; auto with lia.
  - destruct (S k <? lo)%nat eqn:Hlo; [done|].
    apply Nat.ltb_ge in Hlo. destruct (rest (S k)) eqn:HS.
    + intros [= ->]. exists (S k). repeat split; auto with lia.
    + intros (j & Hj & Hr & Hnone)%IH. exists j. repeat split; auto with lia.
      intros i Hi. destruct (decide (i = S k)) as [->|]; [done|].
      apply Hnone. lia.
Qed.

Lemma greedy_first (lo k : nat) (r : A) :
  (lo <= k)%nat → rest k = Some r → greedy rest lo k = Some r.
Proof.
  intros Hlo Hr. destruct k; simpl.
  - apply Nat.ltb_ge in Hlo. by rewrite Hlo, Hr.
  - apply Nat.ltb_ge in Hlo. by rewrite Hlo, Hr.
Qed.

End Greedy.

(** ** Runs of class characters *)

Section Run.
Context (cls : class).
Let inside (c : ascii) : Prop := class_has cls c = true.

Lemma run_all (s : list ascii) : Forall inside s → run cls s = length s.
Proof.
  induction 1 as [|c s Hc _ IH]; simpl; [done|].
  unfold inside in Hc. by rewrite Hc, IH.
Qed.

Lemma run_stop (o a : list ascii) (c : ascii) :
  Forall inside o → class_has cls c = false →
  run cls (o ++ c :: a) = length o.
Proof.
  intros Ho Hc. induction Ho as [|x o Hx _ IH]; simpl.
  - by rewrite Hc.
  - unfold inside in Hx. by rewrite Hx, IH.
Qed.

Lemma run_take (s : list ascii) (j : nat) :
  (j <= run cls s)%nat → Forall inside (take j s) ∧ length (take j s) = j.
Proof.
  revert j. induction s as [|c s IH]; intros j Hj; simpl in Hj.
  - assert (j = 0%nat) as -> by lia. by split.
  - destruct j as [|j]; [by split|]. simpl.
    destruct (class_has cls c) eqn:Hc; [|lia].
    destruct (IH j) as [HF Hlen]; [lia|]. split; [by constructor|].
    by f_equal.
Qed.

Lemma run_le_length (s : list ascii) : (run cls s <= length s)%nat.
Proof.
  induction s as [|c s IH]; simpl; [done|].
  destruct (class_has cls c); lia.
Qed.

End Run.

(** ** The pattern [validApp] on code units *)

Lemma exec_group (cls : class) (lo hi : nat) (p : pattern) (s : list ascii) :
  exec (Group cls lo hi :: p) s =
    greedy (fun k => cons (take k s) <$> exec p (drop k s))
           lo (Nat.min hi (run cls s)).
Proof. reflexivity. Qed.

Lemma exec_literal (c c' : ascii) (p : pattern) (s : list ascii) :
  exec (Literal c :: p) (c' :: s) = if Ascii.eqb c c' then exec p s else None.
Proof. reflexivity. Qed.

Definition valid_run (l : list ascii) : Prop :=
  (1 <= length l <= 100)%nat ∧
  Forall (fun c => class_has validChars c = true) l.

Lemma exec_group_end (a : list ascii) :
  valid_run a → exec [Group validChars 1 100] a = Some [a].
Proof.
  intros [Hlen Hall]. rewrite exec_group, (run_all _ _ Hall).
  rewrite Nat.min_r by lia. apply greedy_first; [lia|].
  rewrite drop_all, take_ge by lia. done.
Qed.

Lemma exec_group_end_inv (s : list ascii) (caps : list (list ascii)) :
  exec [Group validChars 1 100] s = Some caps → caps = [s] ∧ valid_run s.
Proof.
  rewrite exec_group. intros (j & Hj & Hrest & _)%greedy_found.
  destruct (drop j s) as [|c s'] eqn:Hdrop; [|done].
  simpl in Hrest. injection Hrest as <-.
  assert (length s <= j)%nat as Hlen.
  { apply (f_equal length) in Hdrop. rewrite length_drop in Hdrop.
    simpl in Hdrop. lia. }
  pose proof (run_le_length validChars s) as Hrun.
  destruct (run_take validChars s j) as [Hall Htake]; [lia|].
  rewrite take_ge in Hall |- * by lia. split; [done|].
  split; [lia|done].
Qed.

Lemma exec_validApp_intro (o a : list ascii) :
  valid_run o → valid_run a →
  exec validApp (o ++ "/"%char :: a) = Some [o; a].
Proof.
  intros [Hlen Hall] Ha. unfold validApp.
  rewrite exec_group, (run_stop _ _ _ _ Hall slash_not_valid).
  rewrite Nat.min_r by lia. apply greedy_first; [lia|].
  rewrite drop_app_length, take_app_length, exec_literal.
  by rewrite (exec_group_end _ Ha).
Qed.

Lemma exec_validApp_inv (s : list ascii) (caps : list (list ascii)) :
  exec validApp s = Some caps →
  ∃ o a, caps = [o; a] ∧ s = (o ++ "/"%char :: a)%list ∧
         valid_run o ∧ valid_run a.
Proof.
  unfold validApp. rewrite exec_group.
  intros (j & Hj & Hrest & _)%greedy_found.
  destruct (drop j s) as [|c s'] eqn:Hdrop; [done|].
  rewrite exec_literal in Hrest.
  destruct (Ascii.eqb_spec "/" c) as [<-|]; [|done].
  destruct (exec [Group validChars 1 100] s') as [caps'|] eqn:Hexec; [|done].
  apply exec_group_end_inv in Hexec as [-> Ha].
  simpl in Hrest. injection Hrest as <-.
  destruct (run_take validChars s j) as [Hall Htake]; [lia|].
  exists (take j s), s'. split; [done|]. split.
  { by rewrite <- Hdrop, take_drop. }
  split; [|done]. split; [lia|done].
Qed.

(** ** [toDefaultApp] against the specification's pattern *)

Lemma segment_valid_run (s : string) : segment s ↔ valid_run (code_units s).
Proof.
  unfold segment, valid_run. rewrite code_units_length.
  split; intros [? Hall]; (split; [done|]);
    eapply Forall_impl; eauto; intros c; apply validChars_spec.
Qed.

Lemma toDefaultApp_intro (app owner name : string) :
  owner_slash_app app owner name →
  toDefaultApp app =
    Some {| ownerName := owner; appName := name;
            identifier := owner ++ "/" ++ name |}.
Proof.
  intros (-> & Ho%segment_valid_run & Ha%segment_valid_run).
  unfold toDefaultApp, String_match.
  rewrite code_units_app. change (code_units ("/" ++ name))
    with ("/"%char :: code_units name).
  rewrite (exec_validApp_intro _ _ Ho Ha). simpl.
  by rewrite !of_code_units_code_units.
Qed.

Lemma toDefaultApp_inv (app : string) (d : DefaultApp) :
  toDefaultApp app = Some d →
  owner_slash_app app (ownerName d) (appName d) ∧
  identifier d = ownerName d ++ "/" ++ appName d.
Proof.
  unfold toDefaultApp, String_match.
  destruct (exec validApp (code_units app)) as [caps|] eqn:Hexec; [|done].
  apply exec_validApp_inv in Hexec as (o & a & -> & Happ & Ho & Ha).
  simpl. intros [= <-]. simpl. split; [|done]. split; [|split].
  - rewrite <- (of_code_units_code_units app), Happ.
    rewrite <- (code_units_of_code_units o) at 1.
    rewrite <- (code_units_of_code_units a) at 1.
    change ("/"%char :: code_units (of_code_units a))
      with (code_units ("/" ++ of_code_units a)).
    by rewrite <- code_units_app, of_code_units_code_units.
  - apply segment_valid_run. by rewrite code_units_of_code_units.
  - apply segment_valid_run. by rewrite code_units_of_code_units.
Qed.

(** C1. For every string, [toDefaultApp] returns a [DefaultApp] exactly
    when the string matches [^[A-Za-z0-9-_.]{1,100}/[A-Za-z0-9-_.]{1,100}$]:
    the result then has [ownerName] the segment before the slash,
    [appName] the segment after it and [identifier] the two joined by a
    slash; on every string that does not match, it returns [null]. *)
Theorem toDefaultApp_matches_pattern (app : string) :
  (∀ owner name,
     owner_slash_app app owner name →
     toDefaultApp app =
       Some {| ownerName := owner; appName := name;
               identifier := owner ++ "/" ++ name |}) ∧
  (∀ d,
     toDefaultApp app = Some d →
     owner_slash_app app (ownerName d) (appName d) ∧
     identifier d = ownerName d ++ "/" ++ appName d) ∧
  (toDefaultApp app = None ↔ ¬ ∃ owner name, owner_slash_app app owner name).
Proof.
  split; [|split].
  - intros owner name. apply toDefaultApp_intro.
  - intros d. apply toDefaultApp_inv.
  - split.
    + intros Hnone (owner & name & H%toDefaultApp_intro). congruence.
    + intros Hno. destruct (toDefaultApp app) as [d|] eqn:Hd; [|done].
      destruct Hno. exists (ownerName d), (appName d).
      by apply toDefaultApp_inv.
Qed.

(** A match of [validApp] is the array of the whole text and the two
    captures, so [matches[1]] and [matches[2]] are there whenever
    [matches] is not [null]. *)
Lemma String_match_validApp (app : string) (matches : list string) :
  String_match app validApp = Some matches →
  ∃ m1 m2, matches = [app; m1; m2].
Proof.
  unfold String_match.
  destruct (exec validApp (code_units app)) as [caps|] eqn:Hexec; [|done].
  apply exec_validApp_inv in Hexec as (o & a & -> & _).
  intros [= <-]. by eexists _, _.
Qed.

(** The specification's examples. *)
Example toDefaultApp_acme :
  toDefaultApp "acme/myapp" =
    Some {| ownerName := "acme"; appName := "myapp";
            identifier := "acme/myapp" |}.
Proof. reflexivity. Qed.

Example toDefaultApp_space : toDefaultApp "bad app/x" = None.
Proof. reflexivity. Qed.

Example toDefaultApp_no_slash : toDefaultApp "a" = None.
Proof. reflexivity. Qed.

Example toDefaultApp_empty : toDefaultApp "" = None.
Proof. reflexivity. Qed.

Example toDefaultApp_second_slash : toDefaultApp "a/b/c" = None.
Proof. reflexivity. Qed.

(** Segments of 100 characters are accepted, segments of 101 are not. *)
Definition a_times (n : nat) : string := of_code_units (repeat "a"%char n).

Example toDefaultApp_100 :
  toDefaultApp (a_times 100 ++ "/" ++ a_times 100) =
    Some {| ownerName := a_times 100; appName := a_times 100;
            identifier := a_times 100 ++ "/" ++ a_times 100 |}.
Proof. vm_compute. reflexivity. Qed.

Example toDefaultApp_101_owner : toDefaultApp (a_times 101 ++ "/x") = None.
Proof. vm_compute. reflexivity. Qed.

Example toDefaultApp_101_app : toDefaultApp ("x/" ++ a_times 101) = None.
Proof. vm_compute. reflexivity. Qed.

End ToDefaultAppFacts.

(* ===================================================================== *)
(** * Facts: the profile store                                            *)
(* ===================================================================== *)

Module ProfileStoreFacts.

Local Open Scope list_scope.

(** ** Values and JSON *)

(** The object the constructor builds when its argument is an object. *)
Definition constructed (o : object) : ProfileImpl :=
  {| userId := logical_or (get_prop o "userId") (get_prop o "id");
     userName := logical_or (get_prop o "userName") (get_prop o "name");
     displayName := get_prop o "displayName";
     email := get_prop o "email";
     environment := get_prop o "environment";
     defaultApp := get_prop o "defaultApp" |}.

(** The object literal that [save] serialises. *)
Definition saved_fields (p : ProfileImpl) : object :=
  {[ "userId" := userId p;
     "userName" := userName p;
     "displayName" := displayName p;
     "email" := email p;
     "environment" := environment p;
     "defaultApp" := defaultApp p ]}.

Lemma get_prop_through_JSON (o : object) (k : string) :
  get_prop (of_json <$> omap SerializeJSONProperty o) k
  = through_JSON (get_prop o k).
Proof.
  unfold get_prop, through_JSON. rewrite lookup_fmap, lookup_omap.
  destruct (o !! k) as [v|]; simpl; [|done].
  by destruct (SerializeJSONProperty v).
Qed.

Lemma saved_fields_lookup (p : ProfileImpl) :
  get_prop (saved_fields p) "userId" = userId p ∧
  get_prop (saved_fields p) "userName" = userName p ∧
  get_prop (saved_fields p) "displayName" = displayName p ∧
  get_prop (saved_fields p) "email" = email p ∧
  get_prop (saved_fields p) "environment" = environment p ∧
  get_prop (saved_fields p) "defaultApp" = defaultApp p ∧
  get_prop (saved_fields p) "id" = VUndefined ∧
  get_prop (saved_fields p) "name" = VUndefined.
Proof. destruct p. vm_compute. by repeat split. Qed.

Lemma through_JSON_string (s : string) : through_JSON (VStr s) = VStr s.
Proof. reflexivity. Qed.

Lemma through_JSON_undefined : through_JSON VUndefined = VUndefined.
Proof. reflexivity. Qed.

Lemma through_JSON_DefaultApp (d : DefaultApp) :
  through_JSON (DefaultApp_value d) = DefaultApp_value d.
Proof. destruct d. vm_compute. reflexivity. Qed.

(** [Object.assign({}, user, { environment })] *)
Lemma assign_environment (user : object) (env : value) (k : string) :
  get_prop (assign ∅ [user; {[ "environment" := env ]}]) k
  = if decide (k = "environment") then env else get_prop user k.
Proof.
  unfold assign, get_prop. simpl. rewrite (right_id_L ∅ (∪)).
  destruct (decide (k = "environment")) as [->|Hne].
  - by rewrite (lookup_union_Some_l _ _ _ env) by apply lookup_singleton_eq.
  - by rewrite lookup_union_r by by apply lookup_singleton_ne.
Qed.

Section Store.
Context `{TS : TokenStore}.
Implicit Types (w : world) (p : ProfileImpl) (this r : ref).

(** ** One call at a time *)

Lemma constructor_object (o : object) w :
  ProfileImpl_constructor (VObj o) w
  = (Ok (length (heap w)), with_heap (heap w ++ [constructed o]) w).
Proof.
  unfold ProfileImpl_constructor, bind, member, ret, new, constructed,
    logical_or.
  by destruct (truthy (get_prop o "userId")),
    (truthy (get_prop o "userName")).
Qed.

(** Unfolding the monad and the primitive calls. *)
Ltac unfold_calls :=
  unfold fs_statSync_isFile, fs_readFileSync, fs_writeFileSync, mkdirp_sync,
    fs_unlinkSync, tokenStore_get, tokenStore_set, tokenStore_remove,
    read_currentProfile, write_currentProfile, deref, new, JSON_parse,
    sys, log, write_node, try_catch, bind, ret, throw.

Lemma save_writes w this p :
  heap w !! this = Some p →
  fault w Mkdirp = None → fault w Write = None → disk w ≠ Directory →
  save this w
  = (Ok this,
     with_disk (File (JSON_stringify (saved_fields p)))
       (with_trace (trace w ++ [EFs Mkdirp; EFs Write]) w)).
Proof.
  intros Hp Hmk Hwr Hdir. unfold save. unfold_calls. simpl.
  rewrite Hp, Hmk. simpl. rewrite Hwr.
  destruct (disk w) eqn:Hd; try done; simpl;
    by rewrite <- app_assoc.
Qed.

Lemma save_run w this p :
  heap w !! this = Some p →
  save this w =
    match fault w Mkdirp, fault w Write, disk w with
    | Some code, _, _ =>
        (Throw (SystemError code), with_trace (trace w ++ [EFs Mkdirp]) w)
    | None, Some code, _ =>
        (Throw (SystemError code),
         with_trace (trace w ++ [EFs Mkdirp; EFs Write]) w)
    | None, None, Directory =>
        (Throw (SystemError "EISDIR"),
         with_trace (trace w ++ [EFs Mkdirp; EFs Write]) w)
    | None, None, _ =>
        (Ok this,
         with_disk (File (JSON_stringify (saved_fields p)))
           (with_trace (trace w ++ [EFs Mkdirp; EFs Write]) w))
    end.
Proof.
  intros Hp. unfold save. unfold_calls. simpl. rewrite Hp.
  destruct (fault w Mkdirp); simpl; [done|].
  rewrite <- app_assoc. simpl.
  destruct (fault w Write); simpl; [done|].
  by destruct (disk w).
Qed.

Lemma fileExists_file w data :
  fault w Stat = None → disk w = File data →
  fileExists w = (Ok true, with_trace (trace w ++ [EFs Stat]) w).
Proof.
  intros Hst Hd. unfold fileExists. unfold_calls. simpl.
  by rewrite Hst, Hd.
Qed.

Lemma loadProfile_object w doc o :
  fault w Stat = None → fault w Read = None →
  disk w = File (Json doc) → of_json doc = VObj o →
  loadProfile w
  = (Ok (Some (length (heap w))),
     with_heap (heap w ++ [constructed o])
       (with_trace (trace w ++ [EFs Stat; EFs Read]) w)).
Proof.
  intros Hst Hrd Hd Ho. unfold loadProfile, bind at 1.
  rewrite (fileExists_file _ _ Hst Hd). simpl.
  unfold bind at 1. unfold_calls. simpl. rewrite Hrd, Hd, Ho.
  unfold bind. rewrite constructor_object. simpl.
  by rewrite <- app_assoc.
Qed.

(** ** [save] and then [loadProfile] in a new process *)

(** What [loadProfile] rebuilds from the file that [save] wrote. *)
Definition reloaded p : ProfileImpl :=
  {| userId := logical_or (through_JSON (userId p)) VUndefined;
     userName := logical_or (through_JSON (userName p)) VUndefined;
     displayName := through_JSON (displayName p);
     email := through_JSON (email p);
     environment := through_JSON (environment p);
     defaultApp := through_JSON (defaultApp p) |}.

Lemma constructed_saved_fields p :
  constructed (of_json <$> omap SerializeJSONProperty (saved_fields p))
  = reloaded p.
Proof.
  unfold constructed, reloaded. rewrite !get_prop_through_JSON.
  destruct (saved_fields_lookup p)
    as (-> & -> & -> & -> & -> & -> & -> & ->).
  done.
Qed.

Lemma save_then_loadProfile w this p :
  heap w !! this = Some p →
  (∀ c, fault w c = None) → disk w ≠ Directory →
  ∃ w1 w2,
    save this w = (Ok this, w1) ∧
    loadProfile (restart w1) = (Ok (Some 0), w2) ∧
    heap w2 = [reloaded p].
Proof.
  intros Hp Hfault Hdir. eexists _, _. split; [|split].
  - by apply save_writes.
  - eapply loadProfile_object; simpl; eauto.
  - simpl. by rewrite constructed_saved_fields.
Qed.

(** A field of type [string]: a string, or left [undefined]. *)
Definition string_field (v : value) : Prop :=
  v = VUndefined ∨ ∃ s, v = VStr s.

(** The field [defaultApp?: DefaultApp]. *)
Definition app_field (v : value) : Prop :=
  v = VUndefined ∨ ∃ d, v = DefaultApp_value d.

(** A profile whose fields hold what the interface [Profile] declares. *)
Definition well_typed p : Prop :=
  string_field (userId p) ∧ string_field (userName p) ∧
  string_field (displayName p) ∧ string_field (email p) ∧
  string_field (environment p) ∧ app_field (defaultApp p).

Lemma through_JSON_string_field (v : value) :
  string_field v → through_JSON v = v.
Proof. by intros [->|[s ->]]. Qed.

Lemma through_JSON_app_field (v : value) :
  app_field v → through_JSON v = v.
Proof. intros [->|[d ->]]; [done|]. apply through_JSON_DefaultApp. Qed.

Lemma string_field_or_undefined (v : value) :
  string_field v → v ≠ VStr "" → logical_or v VUndefined = v.
Proof.
  intros [->|[s ->]] Hne; [done|]. unfold logical_or. simpl.
  destruct (String.eqb_spec s "") as [->|Hs]; simpl; done.
Qed.

(** ** [logout] *)

(** What [unlinkSync] under [logout]'s handler comes to: the result of
    [logout] once the token is removed, and the node left behind. *)
Definition unlink_or_absent w : result unit * node :=
  match fault w Unlink with
  | Some code =>
      (if String.eqb code "ENOENT" then Ok tt
       else Throw (SystemError code), disk w)
  | None =>
      match disk w with
      | Missing => (Ok tt, Missing)
      | File _ => (Ok tt, Missing)
      | Directory => (Throw (SystemError "EISDIR"), Directory)
      end
  end.

Lemma logout_run w this p :
  heap w !! this = Some p →
  logout this w =
    match store_remove (userName p) (tokens w) with
    | (Throw err, s) =>
        (Throw err,
         with_tokens s
           (with_trace (trace w ++ [ETokenRemove (userName p)]) w))
    | (Ok _, s) =>
        ((unlink_or_absent w).1,
         with_disk (unlink_or_absent w).2
           (with_tokens s
              (with_trace
                 (trace w ++ [ETokenRemove (userName p); EFs Unlink]) w)))
    end.
Proof.
  intros Hp. unfold logout, unlink_or_absent. unfold_calls. simpl.
  rewrite Hp. simpl.
  destruct (store_remove (userName p) (tokens w)) as [[[]|err] s]; simpl;
    [|done].
  rewrite <- app_assoc. simpl.
  destruct (fault w Unlink) as [code|]; simpl.
  - by destruct (String.eqb code "ENOENT").
  - unfold with_disk, with_tokens, with_trace. simpl. by destruct (disk w).
Qed.

Lemma logout_dangling w this :
  heap w !! this = None → logout this w = (Throw TypeError, w).
Proof. intros Hp. unfold logout. unfold_calls. by rewrite Hp. Qed.

(** ** [getUser] *)

Lemma getUser_cached w r :
  currentProfile w = Some r → getUser w = (Ok (Some r), w).
Proof.
  intros Hc. unfold getUser. unfold_calls. rewrite Hc. simpl.
  by rewrite Hc.
Qed.

Lemma getUser_empty w :
  currentProfile w = None →
  getUser w =
    match loadProfile w with
    | (Ok loaded, w') => (Ok loaded, with_currentProfile loaded w')
    | (Throw err, w') => (Throw err, w')
    end.
Proof.
  intros Hc. unfold getUser. unfold_calls. rewrite Hc.
  fold (@bind TS). fold (@ret TS).
  by destruct (loadProfile w) as [[loaded|err] w'].
Qed.

(** [loadProfile] never writes the cache, the disk or the token store. *)
Lemma loadProfile_frame w res w' :
  loadProfile w = (res, w') →
  currentProfile w' = currentProfile w ∧ disk w' = disk w ∧
  fault w' = fault w ∧ tokens w' = tokens w.
Proof.
  unfold loadProfile, fileExists, ProfileImpl_constructor, member.
  unfold_calls. simpl.
  destruct (fault w Stat) as [code|]; simpl.
  { destruct (String.eqb code "ENOENT"); simpl; by intros [= <- <-]. }
  destruct (disk w) as [|[doc|]|] eqn:Hd; simpl;
    try by intros [= <- <-].
  - destruct (fault w Read); simpl; [by intros [= <- <-]|].
    rewrite Hd. simpl.
    destruct (of_json doc) as [| | | | | |o]; simpl;
      try by intros [= <- <-].
    all: repeat
      match goal with
      | |- context [truthy ?v] => destruct (truthy v); simpl
      end; by intros [= <- <-].
  - destruct (fault w Read); simpl; [by intros [= <- <-]|].
    rewrite Hd. simpl. by intros [= <- <-].
Qed.

(** [fileExists] answers [false]: [statSync] raises [ENOENT], or finds
    something that is not a regular file. *)
Definition not_a_file w : Prop :=
  match fault w Stat with
  | Some code => code = "ENOENT"
  | None => disk w = Missing ∨ disk w = Directory
  end.

Lemma loadProfile_not_a_file w :
  not_a_file w →
  loadProfile w = (Ok None, with_trace (trace w ++ [EFs Stat]) w).
Proof.
  unfold not_a_file, loadProfile, fileExists. unfold_calls. simpl.
  destruct (fault w Stat) as [code|]; simpl.
  - by intros ->.
  - by intros [-> | ->].
Qed.

Lemma loadProfile_null w w' :
  loadProfile w = (Ok None, w') → not_a_file w.
Proof.
  unfold not_a_file, loadProfile, fileExists, ProfileImpl_constructor,
    member.
  unfold_calls. simpl.
  destruct (fault w Stat) as [code|]; simpl.
  { destruct (String.eqb_spec code "ENOENT"); simpl; by intros [=]. }
  destruct (disk w) as [|[doc|]|] eqn:Hd; simpl; try by auto.
  - destruct (fault w Read); simpl; [by intros [=]|].
    rewrite Hd. simpl.
    destruct (of_json doc) as [| | | | | |o]; simpl;
      try by intros [=].
    all: repeat
      match goal with
      | |- context [truthy ?v] => destruct (truthy v); simpl
      end; by intros [=].
  - destruct (fault w Read); simpl; [by intros [=]|].
    rewrite Hd. simpl. by intros [=].
Qed.


Lemma getUser_result_cached w res w' :
  getUser w = (Ok res, w') → currentProfile w' = res.
Proof.
  destruct (currentProfile w) as [r|] eqn:Hc.
  - rewrite (getUser_cached _ _ Hc). by intros [= <- <-].
  - rewrite (getUser_empty _ Hc).
    destruct (loadProfile w) as [[loaded|err] w0]; [|done].
    by intros [= <- <-].
Qed.

Lemma logout_frame w this res w' :
  logout this w = (res, w') →
  currentProfile w' = currentProfile w ∧ heap w' = heap w ∧
  fault w' = fault w.
Proof.
  destruct (heap w !! this) as [p|] eqn:Hp.
  - rewrite (logout_run _ _ _ Hp).
    destruct (store_remove (userName p) (tokens w)) as [[[]|err] s];
      by intros [= <- <-].
  - rewrite (logout_dangling _ _ Hp). by intros [= <- <-].
Qed.

(** ** [saveUser] and [deleteUser] *)

(** The profile [saveUser] constructs. *)
Definition profile_of_user (user : object) (env : value) : ProfileImpl :=
  constructed (assign ∅ [user; {[ "environment" := env ]}]).

Lemma saveUser_run (user : object) (token env : value) w :
  saveUser user token env w =
    match store_set (get_prop user "name") token (tokens w) with
    | (Throw err, s) =>
        (Throw err,
         with_tokens s
           (with_trace
              (trace w ++ [ETokenSet (get_prop user "name") token]) w))
    | (Ok _, s) =>
        match
          save (length (heap w))
            (with_heap (heap w ++ [profile_of_user user env])
               (with_tokens s
                  (with_trace
                     (trace w ++ [ETokenSet (get_prop user "name") token])
                     w)))
        with
        | (Ok _, w') => (Ok (length (heap w)), w')
        | (Throw err, w') => (Throw err, w')
        end
    end.
Proof.
  unfold saveUser, bind at 1. unfold tokenStore_set, bind at 1, log. simpl.
  destruct (store_set (get_prop user "name") token (tokens w))
    as [[[]|err] s]; simpl; [|done].
  unfold bind at 1. rewrite constructor_object. simpl.
  unfold bind, ret. by destruct (save _ _) as [[?|?] ?].
Qed.

Lemma saveUser_writes (user : object) (token env : value) w s :
  store_set (get_prop user "name") token (tokens w) = (Ok tt, s) →
  fault w Mkdirp = None → fault w Write = None → disk w ≠ Directory →
  saveUser user token env w
  = (Ok (length (heap w)),
     with_disk (File (JSON_stringify (saved_fields (profile_of_user user env))))
       (with_heap (heap w ++ [profile_of_user user env])
          (with_tokens s
             (with_trace
                (trace w ++ [ETokenSet (get_prop user "name") token;
                             EFs Mkdirp; EFs Write]) w)))).
Proof.
  intros Hs Hmk Hwr Hdir. rewrite saveUser_run, Hs.
  erewrite save_writes; simpl; eauto.
  - by rewrite <- app_assoc.
  - by rewrite lookup_app_r, Nat.sub_diag.
Qed.

Lemma deleteUser_run w :
  deleteUser w =
    match getUser w with
    | (Ok (Some r), w') => logout r w'
    | (Ok None, w') => (Ok tt, w')
    | (Throw err, w') => (Throw err, w')
    end.
Proof.
  unfold deleteUser, bind.
  by destruct (getUser w) as [[[r|]|err] w'].
Qed.

(** [deleteUser()] when [getUser()] returns [null] does what [getUser()]
    did and nothing more. *)
Lemma deleteUser_no_user w w' :
  getUser w = (Ok None, w') → deleteUser w = (Ok tt, w').
Proof. intros Hget. by rewrite deleteUser_run, Hget. Qed.

(** [setAccessToken(token)] stores the token under [userName], leaves the
    profile file alone and resolves to the same object. *)
Lemma setAccessToken_run w this p (token : value) :
  heap w !! this = Some p →
  setAccessToken this token w =
    match store_set (userName p) token (tokens w) with
    | (Ok _, s) =>
        (Ok this,
         with_tokens s
           (with_trace (trace w ++ [ETokenSet (userName p) token]) w))
    | (Throw err, s) =>
        (Throw err,
         with_tokens s
           (with_trace (trace w ++ [ETokenSet (userName p) token]) w))
    end.
Proof.
  intros Hp. unfold setAccessToken. unfold_calls. simpl. rewrite Hp. simpl.
  by destruct (store_set (userName p) token (tokens w)) as [[[]|err] s].
Qed.

(** Any error of [statSync] other than [ENOENT] comes out of [getUser]. *)
Lemma getUser_stat_refused w (code : string) :
  currentProfile w = None →
  fault w Stat = Some code → code ≠ "ENOENT" →
  getUser w
  = (Throw (SystemError code), with_trace (trace w ++ [EFs Stat]) w).
Proof.
  intros Hc Hst Hcode. rewrite (getUser_empty _ Hc).
  unfold loadProfile, fileExists. unfold_calls. simpl. rewrite Hst. simpl.
  by destruct (String.eqb_spec code "ENOENT").
Qed.

Lemma profile_of_user_fields (user : object) (env : value) :
  profile_of_user user env =
    {| userId := logical_or (get_prop user "userId") (get_prop user "id");
       userName :=
         logical_or (get_prop user "userName") (get_prop user "name");
       displayName := get_prop user "displayName";
       email := get_prop user "email";
       environment := env;
       defaultApp := get_prop user "defaultApp" |}.
Proof.
  unfold profile_of_user, constructed. by rewrite !assign_environment.
Qed.

(** ** The claims *)

(** The system reports that there is no profile file: [statSync] raises
    [ENOENT]. *)
Definition no_profile_file w : Prop :=
  match fault w Stat with
  | Some code => code = "ENOENT"
  | None => disk w = Missing
  end.

(** C5. When the profile file does not exist and nothing is cached,
    [getUser()] returns [null] and does not throw: the only thing it does
    is the [statSync] that finds the file absent. *)
Theorem getUser_without_file w :
  currentProfile w = None → no_profile_file w →
  ∃ w', getUser w = (Ok None, w') ∧
        trace w' = trace w ++ [EFs Stat] ∧
        currentProfile w' = None ∧ heap w' = heap w ∧ disk w' = disk w.
Proof.
  intros Hc Hno. rewrite (getUser_empty _ Hc).
  unfold no_profile_file in Hno. unfold loadProfile, fileExists.
  unfold_calls. simpl.
  destruct (fault w Stat) as [code|]; simpl.
  - subst code. simpl. by eexists.
  - rewrite Hno. simpl. by eexists.
Qed.

(** C6. For every profile, [logout()] first removes the token-store entry
    keyed by its [userName] and then unlinks the profile file.  If the
    removal rejects, [logout] rejects with it and the file is not touched.
    Otherwise a successful unlink leaves no file; an unlink that raises
    [ENOENT] (the file is already absent) is success; any other unlink
    error is thrown to the caller.  So a second [logout()] after a
    completed one, the token store resolving again, completes too. *)
Theorem logout_token_then_file w this p res w' :
  heap w !! this = Some p →
  logout this w = (res, w') →
  let removal := store_remove (userName p) (tokens w) in
  tokens w' = removal.2 ∧
  match removal.1 with
  | Throw err =>
      res = Throw err ∧
      trace w' = trace w ++ [ETokenRemove (userName p)] ∧
      disk w' = disk w
  | Ok _ =>
      trace w' = trace w ++ [ETokenRemove (userName p); EFs Unlink] ∧
      match (fs_unlinkSync w).1 with
      | Ok _ => res = Ok tt ∧ disk w' = Missing
      | Throw err =>
          disk w' = disk w ∧
          res = (if code_is err "ENOENT" then Ok tt else Throw err)
      end ∧
      (res = Ok tt →
       ∀ again w'',
         logout this w' = (again, w'') →
         (store_remove (userName p) (tokens w')).1 = Ok tt →
         again = Ok tt)
  end.
Proof.
  intros Hp. rewrite (logout_run _ _ _ Hp). simpl.
  destruct (store_remove (userName p) (tokens w)) as [[[]|err] s] eqn:Hrm;
    simpl; intros [= <- <-]; simpl; [|done].
  split; [done|]. split; [done|]. split.
  - unfold fs_unlinkSync, unlink_or_absent. unfold_calls. simpl.
    destruct (fault w Unlink) as [code|]; simpl.
    + by destruct (String.eqb code "ENOENT").
    + by destruct (disk w).
  - intros Hres again w''. rewrite (logout_run _ _ p) by done. simpl.
    destruct (store_remove (userName p) s) as [[[]|err] s']; simpl;
      [|by intros _ [=]].
    intros [= <- <-] _. revert Hres.
    unfold unlink_or_absent. simpl.
    destruct (fault w Unlink) as [code|]; simpl.
    + by destruct (String.eqb code "ENOENT").
    + by destruct (disk w).
Qed.


(** C10. The constructor coalesces on falsiness: [userId] is the input's
    [userId] when that is truthy and its [id] otherwise, and [userName]
    likewise falls back to [name]; the four other fields are copied.  In
    particular an input whose [userId] (or [userName]) is the empty string
    gets the input's [id] (or [name]), which is [undefined] when the input
    has no such property. *)
Theorem constructor_falls_back_on_falsy (o : object) w :
  ∃ p,
    ProfileImpl_constructor (VObj o) w
    = (Ok (length (heap w)), with_heap (heap w ++ [p]) w) ∧
    userId p = (if truthy (get_prop o "userId") then get_prop o "userId"
                else get_prop o "id") ∧
    userName p = (if truthy (get_prop o "userName")
                  then get_prop o "userName" else get_prop o "name") ∧
    displayName p = get_prop o "displayName" ∧
    email p = get_prop o "email" ∧
    environment p = get_prop o "environment" ∧
    defaultApp p = get_prop o "defaultApp" ∧
    (o !! "userId" = Some (VStr "") → userId p = get_prop o "id") ∧
    (o !! "userName" = Some (VStr "") → userName p = get_prop o "name") ∧
    (o !! "userId" = Some (VStr "") → o !! "id" = None →
     userId p = VUndefined) ∧
    (o !! "userName" = Some (VStr "") → o !! "name" = None →
     userName p = VUndefined).
Proof.
  exists (constructed o). split; [apply constructor_object|].
  unfold constructed, logical_or, get_prop. simpl.
  repeat split; try done.
  - by intros ->.
  - by intros ->.
  - by intros -> ->.
  - by intros -> ->.
Qed.

(** C9. When [user.userName] and [user.name] are both truthy, [saveUser]
    stores the token under [user.name], while the profile it returns has
    [userName = user.userName]; a later [logout()] on that profile asks
    the token store to remove the key [userName] and no other, so when
    the two differ the key the token was stored under is never removed. *)
Theorem saveUser_and_logout_keys (user : object) (token env : value)
    w r w1 :
  truthy (get_prop user "userName") = true →
  truthy (get_prop user "name") = true →
  saveUser user token env w = (Ok r, w1) →
  trace w1 = trace w ++ [ETokenSet (get_prop user "name") token;
                         EFs Mkdirp; EFs Write] ∧
  tokens w1 = (store_set (get_prop user "name") token (tokens w)).2 ∧
  ∃ p, heap w1 !! r = Some p ∧
       userName p = get_prop user "userName" ∧
       ∀ res w2,
         logout r w1 = (res, w2) →
         tokens w2 =
           (store_remove (get_prop user "userName") (tokens w1)).2 ∧
         ∃ rest,
           trace w2 =
             trace w1 ++ ETokenRemove (get_prop user "userName") :: rest ∧
           (∀ e, e ∈ rest → e = EFs Unlink) ∧
           (get_prop user "name" ≠ get_prop user "userName" →
            ETokenRemove (get_prop user "name")
              ∉ ETokenRemove (get_prop user "userName") :: rest).
Proof.
  intros HuserName Hname. rewrite saveUser_run.
  destruct (store_set (get_prop user "name") token (tokens w))
    as [[[]|err] s]; simpl; [|done].
  erewrite save_run by (simpl; by rewrite lookup_app_r, Nat.sub_diag).
  simpl.
  destruct (fault w Mkdirp) as [c1|]; [done|].
  destruct (fault w Write) as [c2|]; [done|].
  destruct (disk w) eqn:Hd; [| |done]; intros [= <- <-]; simpl.
  all: rewrite <- app_assoc; simpl; split; [done|]; split; [done|].
  all: exists (profile_of_user user env).
  all: split; [by rewrite lookup_app_r, Nat.sub_diag|].
  all: split;
    [rewrite profile_of_user_fields; simpl; unfold logical_or;
     by rewrite HuserName|].
  all: intros res w2; erewrite logout_run
    by (simpl; by rewrite lookup_app_r, Nat.sub_diag).
  all: assert (userName (profile_of_user user env)
               = get_prop user "userName") as ->
    by (rewrite profile_of_user_fields; simpl; unfold logical_or;
        by rewrite HuserName).
  all: simpl;
    destruct (store_remove (get_prop user "userName") s) as [[[]|err] s'];
    simpl; intros [= <- <-]; simpl; (split; [done|]).
  all: eexists; split; [reflexivity|].
  all: split;
    [intros e He; rewrite ?elem_of_cons, ?elem_of_nil in He; intuition|].
  all: intros Hne Hin; rewrite ?elem_of_cons, ?elem_of_nil in Hin;
    intuition congruence.
Qed.

(** C4, as the code has it.  Whenever [getUser()] returns, an immediately
    following [getUser()] returns the same thing.  If that was a profile,
    the second call returns the very same object and does nothing else:
    no call to the file system, no change of state.  If it was [null],
    nothing was cached: the second call asks the file system again
    ([statSync]) and, finding no file again, reads nothing. *)
Theorem getUser_twice w res w1 :
  getUser w = (Ok res, w1) →
  match res with
  | Some r => getUser w1 = (Ok (Some r), w1)
  | None =>
      ∃ w2, getUser w1 = (Ok None, w2) ∧
            trace w2 = trace w1 ++ [EFs Stat]
  end.
Proof.
  intros Hget. pose proof (getUser_result_cached _ _ _ Hget) as Hcache.
  destruct res as [r|]; [by apply getUser_cached|].
  destruct (currentProfile w) as [r|] eqn:Hc.
  { by rewrite (getUser_cached _ _ Hc) in Hget. }
  rewrite (getUser_empty _ Hc) in Hget.
  destruct (loadProfile w) as [[[r|]|err] w0] eqn:Hload; [done| |done].
  injection Hget as <-.
  pose proof (loadProfile_null _ _ Hload) as Hno.
  apply loadProfile_frame in Hload as (_ & Hd & Hf & _).
  rewrite (getUser_empty _ Hcache), loadProfile_not_a_file.
  - by eexists.
  - unfold not_a_file in *. simpl. by rewrite Hf, Hd.
Qed.

(** C8, as the code has it.  [saveUser] and [logout] leave
    [currentProfile] as it was.  After a [saveUser] that returned, a
    [getUser()] on an empty cache (stat and read not refused) loads the
    file just written and caches the loaded profile.  After a [logout()]
    that completed, [getUser()] returns the profile that was cached
    before it, if there was one, and [null] if the cache was empty (on a
    system that refuses no call); after a [deleteUser()] that completed
    and had found a user, [getUser()] still returns that user. *)
Theorem cache_survives_logout :
  (∀ (user : object) (token env : value) w res w',
     saveUser user token env w = (res, w') →
     currentProfile w' = currentProfile w) ∧
  (∀ (user : object) (token env : value) w r w',
     saveUser user token env w = (Ok r, w') →
     currentProfile w = None →
     fault w Stat = None → fault w Read = None →
     ∃ r' w'', getUser w' = (Ok (Some r'), w'') ∧
               currentProfile w'' = Some r') ∧
  (∀ this w res w',
     logout this w = (res, w') → currentProfile w' = currentProfile w) ∧
  (∀ this w w' r,
     logout this w = (Ok tt, w') → currentProfile w = Some r →
     getUser w' = (Ok (Some r), w')) ∧
  (∀ this w w',
     logout this w = (Ok tt, w') → currentProfile w = None →
     (∀ c, fault w c = None) →
     ∃ w'', getUser w' = (Ok None, w'')) ∧
  (∀ w w0 w' r,
     getUser w = (Ok (Some r), w0) → deleteUser w = (Ok tt, w') →
     getUser w' = (Ok (Some r), w')).
Proof.
  split; [|split; [|split; [|split; [|split]]]].
  - intros user token env w res w'. rewrite saveUser_run.
    destruct (store_set _ _ _) as [[[]|err] s]; [|by intros [= <- <-]].
    erewrite save_run by (simpl; by rewrite lookup_app_r, Nat.sub_diag).
    simpl.
    destruct (fault w Mkdirp); [|destruct (fault w Write);
      [|destruct (disk w)]]; by intros [= <- <-].
  - intros user token env w r w' Hsave Hc Hst Hrd.
    rewrite saveUser_run in Hsave.
    destruct (store_set _ _ _) as [[[]|err] s]; [|done].
    erewrite save_run in Hsave
      by (simpl; by rewrite lookup_app_r, Nat.sub_diag).
    simpl in Hsave.
    destruct (fault w Mkdirp); [done|]. destruct (fault w Write); [done|].
    destruct (disk w); [| |done]; injection Hsave as <- <-.
    all: rewrite getUser_empty by done.
    all: erewrite loadProfile_object; simpl; eauto.
  - intros this w res w' H. by apply logout_frame in H as (? & _).
  - intros this w w' r H Hc. apply logout_frame in H as (Hc' & _).
    apply getUser_cached. congruence.
  - intros this w w' Hout Hc Hfault.
    pose proof (logout_frame _ _ _ _ Hout) as (Hc' & _ & Hf).
    rewrite getUser_empty by congruence.
    rewrite loadProfile_not_a_file; [by eexists|].
    unfold not_a_file. rewrite Hf, Hfault.
    destruct (heap w !! this) as [p|] eqn:Hp.
    + rewrite (logout_run _ _ _ Hp) in Hout. unfold unlink_or_absent in Hout.
      rewrite Hfault in Hout.
      destruct (store_remove _ _) as [[[]|err] s]; [|done].
      destruct (disk w); simpl in Hout; [| |done];
        injection Hout as <-; simpl; auto.
    + by rewrite (logout_dangling _ _ Hp) in Hout.
  - intros w w0 w' r Hget. rewrite deleteUser_run, Hget. intros Hout.
    apply getUser_result_cached in Hget.
    apply logout_frame in Hout as (Hc' & _).
    apply getUser_cached. congruence.
Qed.

(** ** [defaultApp] *)




(** C2, as the code has it.  Take a profile whose fields hold what the
    interface declares (strings, possibly left out; a [DefaultApp] or
    none), on a system that refuses no call and whose profile path is not
    a directory.  Then [save()] returns, a [loadProfile()] in a new
    process returns a profile, and that profile has the same
    [displayName], [email], [environment] and [defaultApp]; its [userId]
    and [userName] are the same too unless they were the empty string,
    which comes back as [undefined]. *)
Theorem save_then_load_roundtrip w this p :
  heap w !! this = Some p →
  well_typed p →
  (∀ c, fault w c = None) → disk w ≠ Directory →
  ∃ w1 r w2 p',
    save this w = (Ok this, w1) ∧
    loadProfile (restart w1) = (Ok (Some r), w2) ∧
    heap w2 !! r = Some p' ∧
    displayName p' = displayName p ∧
    email p' = email p ∧
    environment p' = environment p ∧
    defaultApp p' = defaultApp p ∧
    (userId p ≠ VStr "" → userId p' = userId p) ∧
    (userName p ≠ VStr "" → userName p' = userName p) ∧
    (userId p = VStr "" → userId p' = VUndefined) ∧
    (userName p = VStr "" → userName p' = VUndefined).
Proof.
  intros Hp (Hid & Hname & Hdisplay & Hemail & Henv & Happ) Hfault Hdir.
  destruct (save_then_loadProfile _ _ _ Hp Hfault Hdir)
    as (w1 & w2 & Hsave & Hload & Hheap).
  exists w1, 0%nat, w2, (reloaded p).
  split; [done|]. split; [done|]. split; [by rewrite Hheap|].
  unfold reloaded. simpl.
  rewrite (through_JSON_string_field _ Hid),
    (through_JSON_string_field _ Hname),
    (through_JSON_string_field _ Hdisplay),
    (through_JSON_string_field _ Hemail),
    (through_JSON_string_field _ Henv),
    (through_JSON_app_field _ Happ).
  repeat split; try done.
  - by apply string_field_or_undefined.
  - by apply string_field_or_undefined.
  - by intros ->.
  - by intros ->.
Qed.

End Store.

End ProfileStoreFacts.

(* ===================================================================== *)
(** * Scenarios: the theorems and their limits on concrete processes      *)
(* ===================================================================== *)

Module Scenarios.

Import ProfileStoreFacts.
Local Open Scope list_scope.

(** A process over the in-memory token store, with the given objects
    already allocated, an empty cache and a system that refuses nothing. *)
Definition process (h : list ProfileImpl) (d : node) : @world memory_store :=
  @mkWorld memory_store h None d no_fault ∅ [].

Definition acme_myapp : DefaultApp :=
  {| ownerName := "acme"; appName := "myapp"; identifier := "acme/myapp" |}.

Definition alice : ProfileImpl :=
  {| userId := VStr "42";
     userName := VStr "alice";
     displayName := VStr "Alice";
     email := VStr "alice@example.com";
     environment := VStr "prod";
     defaultApp := DefaultApp_value acme_myapp |}.

(** The profile file [save] writes for [alice]. *)
Definition alice_file : node := File (JSON_stringify (saved_fields alice)).

(** The same user as the API returns her: [id] and [name], a login name
    in [userName] that differs from [name]. *)
Definition alice_from_api : object :=
  {[ "id" := VStr "42";
     "name" := VStr "alice";
     "userName" := VStr "alice.login";
     "displayName" := VStr "Alice";
     "email" := VStr "alice@example.com" ]}.

Lemma alice_well_typed : well_typed alice.
Proof.
  repeat split; try (right; eexists; reflexivity).
Qed.

(** ** The theorems at work

    Each theorem is applied to a concrete process, its hypotheses
    discharged by evaluation. *)

(** Closed goals about concrete processes are settled by evaluation. *)
Ltac evaluate := vm_compute; repeat split; try reflexivity; try discriminate.

(** [save] of [alice] and a [loadProfile] in a new process give [alice]
    back. *)
Lemma save_then_load_roundtrip_witness :
  ∃ w1 r w2 p',
    save 0 (process [alice] Missing) = (Ok 0%nat, w1) ∧
    loadProfile (restart w1) = (Ok (Some r), w2) ∧
    heap w2 !! r = Some p' ∧
    p' = alice.
Proof.
  destruct (save_then_load_roundtrip (process [alice] Missing) 0 alice)
    as (w1 & r & w2 & [u n d e v a]
        & Hsave & Hload & Hheap & Hd & He & Hv & Ha & Hu & Hn & _).
  - reflexivity.
  - exact alice_well_typed.
  - reflexivity.
  - discriminate.
  - simpl in *.
    specialize (Hu ltac:(discriminate)). specialize (Hn ltac:(discriminate)).
    subst. by eexists _, _, _, _.
Defined.

(** A second [getUser()] after one that loaded [alice]'s file. *)
Lemma getUser_twice_witness :
  let w1 := (getUser (process [] alice_file)).2 in
  getUser (process [] alice_file) = (Ok (Some 0%nat), w1) ∧
  getUser w1 = (Ok (Some 0%nat), w1) ∧
  trace w1 = [EFs Stat; EFs Read].
Proof.
  split; [by evaluate|]. split; [|by evaluate].
  apply (getUser_twice (process [] alice_file) (Some 0%nat)). by evaluate.
Defined.

(** [getUser()] with no profile file. *)
Lemma getUser_without_file_witness :
  ∃ w', getUser (process [] Missing) = (Ok None, w') ∧
        trace w' = [EFs Stat] ∧
        currentProfile w' = None ∧ heap w' = [] ∧ disk w' = Missing.
Proof.
  apply (getUser_without_file (process [] Missing)); reflexivity.
Defined.

(** [logout()] of [alice] with her file in place, and once more. *)
Lemma logout_token_then_file_witness :
  let w := process [alice] alice_file in
  let w' := (logout 0 w).2 in
  (logout 0 w).1 = Ok tt ∧
  trace w' = [ETokenRemove (VStr "alice"); EFs Unlink] ∧
  disk w' = Missing ∧
  (logout 0 w').1 = Ok tt.
Proof.
  intros w w'.
  assert (logout 0 w = ((logout 0 w).1, w')) as Hout by (by evaluate).
  assert (logout 0 w' = ((logout 0 w').1, (logout 0 w').2)) as Hagain
    by (by evaluate).
  pose proof (logout_token_then_file w 0 alice _ _ eq_refl Hout) as Hspec.
  assert ((logout 0 w).1 = Ok tt) as Hres by (by evaluate).
  split; [exact Hres|]. split; [by evaluate|]. split; [by evaluate|].
  destruct Hspec as (_ & Hspec). vm_compute in Hspec.
  destruct Hspec as (_ & _ & Hspec).
  apply (Hspec eq_refl _ _ Hagain). by evaluate.
Defined.


(** [saveUser] stores under ["alice"], [logout] removes ["alice.login"]:
    the token stays. *)
Lemma saveUser_and_logout_keys_witness :
  let w := process [] Missing in
  let w1 := (saveUser alice_from_api (VStr "secret") (VStr "prod") w).2 in
  let w2 := (logout 0 w1).2 in
  tokens w1 = {[ "alice" := VStr "secret" ]} ∧
  trace w2 = trace w1 ++ [ETokenRemove (VStr "alice.login"); EFs Unlink] ∧
  tokens w2 = {[ "alice" := VStr "secret" ]}.
Proof.
  intros w w1 w2.
  assert (saveUser alice_from_api (VStr "secret") (VStr "prod") w
          = (Ok 0%nat, w1)) as Hsave by (by evaluate).
  assert (logout 0 w1 = ((logout 0 w1).1, w2)) as Hout by (by evaluate).
  destruct (saveUser_and_logout_keys alice_from_api (VStr "secret")
              (VStr "prod") w 0 w1) as (_ & Htokens & p & _ & _ & Hlogout);
    [by evaluate|by evaluate|exact Hsave|].
  destruct (Hlogout _ _ Hout) as (Htokens2 & _).
  split; [by evaluate|]. split; [by evaluate|].
  rewrite Htokens2. by evaluate.
Defined.

(** ["acme/myapp"] matches the pattern and is parsed. *)
Lemma toDefaultApp_matches_pattern_witness :
  ToDefaultAppFacts.owner_slash_app "acme/myapp" "acme" "myapp" ∧
  toDefaultApp "acme/myapp"
  = Some {| ownerName := "acme"; appName := "myapp";
            identifier := "acme/myapp" |}.
Proof.
  assert (ToDefaultAppFacts.owner_slash_app "acme/myapp" "acme" "myapp")
    as Hmatch.
  { split; [reflexivity|].
    split; apply ToDefaultAppFacts.segment_valid_run;
      (split; [simpl; lia|repeat constructor]). }
  split; [exact Hmatch|].
  exact (proj1 (ToDefaultAppFacts.toDefaultApp_matches_pattern "acme/myapp")
           "acme" "myapp" Hmatch)%string.
Defined.

(** An API object with an empty [userId] and no [userName]. *)
Definition blank_ids : object :=
  {[ "userId" := VStr ""; "id" := VStr "42"; "name" := VStr "alice" ]}.

(** The constructor on [blank_ids] takes [id] and [name]. *)
Lemma constructor_falls_back_on_falsy_witness :
  ∃ p,
    ProfileImpl_constructor (VObj blank_ids) (process [] Missing)
    = (Ok 0%nat, with_heap [p] (process [] Missing)) ∧
    userId p = VStr "42" ∧ userName p = VStr "alice".
Proof.
  destruct (constructor_falls_back_on_falsy blank_ids (process [] Missing))
    as (p & Hrun & Hid & Hname & _).
  exists p. split; [exact Hrun|]. split.
  - rewrite Hid. by evaluate.
  - rewrite Hname. by evaluate.
Defined.


(** [getUser()], [logout()], [getUser()]: the file is gone, the cached
    profile is returned. *)
Lemma cache_survives_logout_witness :
  let w := (getUser (process [] alice_file)).2 in
  let w' := (logout 0 w).2 in
  disk w' = Missing ∧ getUser w' = (Ok (Some 0%nat), w').
Proof.
  intros w w'. split; [by evaluate|].
  apply (proj1 (proj2 (proj2 (proj2 cache_survives_logout))) 0%nat w w');
    by evaluate.
Defined.

(** ** Where the specification's sentences stop holding *)

(** A profile whose [userId] is the empty string. *)
Definition nameless : ProfileImpl :=
  {| userId := VStr "";
     userName := VStr "alice";
     displayName := VStr "Alice";
     email := VStr "alice@example.com";
     environment := VStr "prod";
     defaultApp := VUndefined |}.

(** C2 as stated fails: [save()] of [nameless] and a [loadProfile()] in a
    new process give a profile whose [userId] is [undefined], not [""]:
    the file holds [userId: ""], and the constructor takes
    ["" || fileContents.id]. *)
Lemma roundtrip_loses_empty_userId :
  let w1 := (save 0 (process [nameless] Missing)).2 in
  let w2 := (loadProfile (restart w1)).2 in
  save 0 (process [nameless] Missing) = (Ok 0%nat, w1) ∧
  loadProfile (restart w1) = (Ok (Some 0%nat), w2) ∧
  (∃ p', heap w2 !! 0%nat = Some p' ∧
         userId p' = VUndefined ∧
         userId p' ≠ userId nameless) ∧
  userId nameless = VStr "".
Proof.
  split; [by evaluate|]. split; [by evaluate|]. split; [|reflexivity].
  exists (reloaded nameless). by evaluate.
Qed.




(** C4 as stated fails.  On a profile file that is not JSON both calls
    throw, nothing is cached, and the second call stats and reads the
    file all over again.  With no profile file both calls return [null],
    which is not cached either: the second call goes to the file system
    again. *)
Lemma getUser_goes_back_to_disk :
  let w1 := (getUser (process [] (File NotJson))).2 in
  let w2 := (getUser w1).2 in
  let v1 := (getUser (process [] Missing)).2 in
  let v2 := (getUser v1).2 in
  (getUser (process [] (File NotJson)) = (Throw SyntaxError, w1) ∧
   trace w1 = [EFs Stat; EFs Read] ∧
   currentProfile w1 = None ∧
   getUser w1 = (Throw SyntaxError, w2) ∧
   trace w2 = [EFs Stat; EFs Read; EFs Stat; EFs Read]) ∧
  (getUser (process [] Missing) = (Ok None, v1) ∧
   trace v1 = [EFs Stat] ∧
   currentProfile v1 = None ∧
   getUser v1 = (Ok None, v2) ∧
   trace v2 = [EFs Stat; EFs Stat]).
Proof. by evaluate. Qed.

(** C8 as stated fails: [deleteUser()] loads and caches the profile, then
    removes the token and the file; it completes, the file is gone, and
    the next [getUser()] still returns the cached profile, not [null]. *)
Lemma getUser_after_deleteUser_is_not_null :
  let w1 := (deleteUser (process [] alice_file)).2 in
  deleteUser (process [] alice_file) = (Ok tt, w1) ∧
  disk w1 = Missing ∧
  trace w1 = [EFs Stat; EFs Read;
              ETokenRemove (VStr "alice"); EFs Unlink] ∧
  getUser w1 = (Ok (Some 0%nat), w1) ∧
  heap w1 !! 0%nat = Some alice.
Proof. by evaluate. Qed.

(** ** More runs *)

(** The token that [saveUser] stored under [name] is still in the store
    after [logout] removed the key [userName]. *)
Example token_left_behind :
  let w := process [] Missing in
  let w1 := (saveUser alice_from_api (VStr "secret") (VStr "prod") w).2 in
  let w2 := (logout 0 w1).2 in
  (logout 0 w1).1 = Ok tt ∧
  store_get (VStr "alice") (tokens w2)
  = (Ok (VObj {[ "accessToken" := VStr "secret" ]}), tokens w2).
Proof. by evaluate. Qed.

(** [saveUser] overwrites the profile file that is there. *)
Example saveUser_overwrites :
  let w := process [] (File NotJson) in
  let r := saveUser alice_from_api (VStr "secret") (VStr "prod") w in
  r.1 = Ok 0%nat ∧
  disk r.2 =
    File (JSON_stringify
            (saved_fields (profile_of_user alice_from_api (VStr "prod")))).
Proof. by evaluate. Qed.

(** When the token store rejects, [saveUser] rejects and the file is as
    it was. *)
Example saveUser_offline :
  let w := @mkWorld offline_store [] None alice_file no_fault tt [] in
  let r := saveUser alice_from_api (VStr "secret") (VStr "prod") w in
  r.1 = Throw (StoreError (VStr "offline")) ∧
  disk r.2 = alice_file ∧ heap r.2 = [] ∧
  trace r.2 = [ETokenSet (VStr "alice") (VStr "secret")].
Proof. by evaluate. Qed.

(** [logout] on a path that is a directory: the unlink error is not
    [ENOENT] and is thrown. *)
Example logout_directory :
  let r := logout 0 (process [alice] Directory) in
  r.1 = Throw (SystemError "EISDIR") ∧
  trace r.2 = [ETokenRemove (VStr "alice"); EFs Unlink].
Proof. by evaluate. Qed.

(** [logout] when the system refuses the unlink for want of permission. *)
Example logout_refused :
  let w :=
    @mkWorld memory_store [alice] None alice_file
      (fun c => match c with Unlink => Some "EACCES" | _ => None end) ∅ [] in
  let r := logout 0 w in
  r.1 = Throw (SystemError "EACCES") ∧ disk r.2 = alice_file.
Proof. by evaluate. Qed.

(** [deleteUser] with no user does not touch the token store. *)
Example deleteUser_nobody :
  let r := deleteUser (process [] Missing) in
  r.1 = Ok tt ∧ trace r.2 = [EFs Stat].
Proof. by evaluate. Qed.

End Scenarios.

(* ===================================================================== *)
(** * More facts: [toDefaultApp]                                          *)
(* ===================================================================== *)

Module ToDefaultAppMore.

Import ToDefaultAppFacts.




(** X1. The [identifier] of a result is the input string itself, so
    [toDefaultApp] applied to the identifier of a [DefaultApp] it returned
    returns that same [DefaultApp] again. *)
Theorem toDefaultApp_identifier_is_input (app : string) (d : DefaultApp) :
  toDefaultApp app = Some d →
  identifier d = app ∧ toDefaultApp (identifier d) = Some d.
Proof.
  intros Hd. destruct (toDefaultApp_inv _ _ Hd) as [(Happ & _) Hid].
  assert (identifier d = app) as -> by congruence. done.
Qed.


End ToDefaultAppMore.

(* ===================================================================== *)
(** * More facts: the profile store                                       *)
(* ===================================================================== *)

Module ProfileStoreMore.

Import ProfileStoreFacts.
Local Open Scope list_scope.

(** The profile the constructor builds from a value with no properties. *)
Definition blank : ProfileImpl :=
  {| userId := VUndefined; userName := VUndefined;
     displayName := VUndefined; email := VUndefined;
     environment := VUndefined; defaultApp := VUndefined |}.

(** The six property names [save] writes. *)
Definition saved_names : list string :=
  ["userId"; "userName"; "displayName"; "email"; "environment";
   "defaultApp"].

Lemma SerializeJSONProperty_None (v : value) :
  SerializeJSONProperty v = None ↔ v = VUndefined.
Proof. by destruct v as [| | |[]| | |]. Qed.

Lemma of_json_defined (doc : json) : of_json doc ≠ VUndefined.
Proof. by destruct doc. Qed.

Lemma of_json_null (doc : json) : of_json doc = VNull ↔ doc = JNull.
Proof. by destruct doc. Qed.

Lemma of_json_object (doc : json) (o : object) :
  of_json doc = VObj o → ∃ m, doc = JObj m.
Proof. destruct doc; try done. by eexists. Qed.

Section Store.
Context `{TS : TokenStore}.
Implicit Types (w : world) (p : ProfileImpl) (this r : ref).

Ltac unfold_calls :=
  unfold fs_statSync_isFile, fs_readFileSync, fs_writeFileSync, mkdirp_sync,
    fs_unlinkSync, tokenStore_get, tokenStore_set, tokenStore_remove,
    read_currentProfile, write_currentProfile, deref, new, JSON_parse,
    sys, log, write_node, try_catch, bind, ret, throw.

(** ** [fileExists] and [loadProfile], case by case *)

(** What [loadProfile] comes to on a given system: the profile it builds
    (if any) or the error, and the calls it makes. *)
Definition load_outcome w : result (option ProfileImpl) * list event :=
  match fault w Stat with
  | Some code =>
      (if String.eqb code "ENOENT" then Ok None
       else Throw (SystemError code), [EFs Stat])
  | None =>
      match disk w with
      | Missing | Directory => (Ok None, [EFs Stat])
      | File data =>
          match fault w Read with
          | Some code => (Throw (SystemError code), [EFs Stat; EFs Read])
          | None =>
              (match data with
               | NotJson => Throw SyntaxError
               | Json doc =>
                   match of_json doc with
                   | VUndefined | VNull => Throw TypeError
                   | VObj o => Ok (Some (constructed o))
                   | _ => Ok (Some blank)
                   end
               end, [EFs Stat; EFs Read])
          end
      end
  end.

Lemma constructor_run (v : value) w :
  ProfileImpl_constructor v w =
    match v with
    | VUndefined | VNull => (Throw TypeError, w)
    | VObj o =>
        (Ok (length (heap w)), with_heap (heap w ++ [constructed o]) w)
    | _ => (Ok (length (heap w)), with_heap (heap w ++ [blank]) w)
    end.
Proof.
  destruct v; try done. apply constructor_object.
Qed.

Lemma loadProfile_run w :
  loadProfile w =
    match load_outcome w with
    | (Ok (Some p), evs) =>
        (Ok (Some (length (heap w))),
         with_heap (heap w ++ [p]) (with_trace (trace w ++ evs) w))
    | (Ok None, evs) => (Ok None, with_trace (trace w ++ evs) w)
    | (Throw err, evs) => (Throw err, with_trace (trace w ++ evs) w)
    end.
Proof.
  unfold load_outcome, loadProfile, fileExists. unfold bind at 1.
  unfold_calls. simpl.
  destruct (fault w Stat) as [c1|]; simpl.
  { by destruct (String.eqb c1 "ENOENT"). }
  destruct (disk w) as [|data|] eqn:Hd; simpl; try done.
  rewrite <- app_assoc. simpl.
  destruct (fault w Read) as [c2|]; simpl; [done|]. rewrite Hd. simpl.
  destruct data as [doc|]; simpl; [|done].
  fold (@bind TS). fold (@ret TS).
  unfold bind. rewrite constructor_run.
  by destruct (of_json doc).
Qed.

Lemma fileExists_run w :
  fileExists w =
    (match fault w Stat with
     | Some code =>
         if String.eqb code "ENOENT" then Ok false
         else Throw (SystemError code)
     | None =>
         match disk w with
         | File _ => Ok true
         | Missing | Directory => Ok false
         end
     end, with_trace (trace w ++ [EFs Stat]) w).
Proof.
  unfold fileExists. unfold_calls. simpl.
  destruct (fault w Stat) as [code|]; simpl.
  - by destruct (String.eqb code "ENOENT").
  - by destruct (disk w).
Qed.

(** X3. [fileExists] answers [true] only for a regular file.  It answers
    [false], without throwing, when [statSync] raises [ENOENT] and when
    the path is something else than a regular file; it throws exactly the
    [statSync] errors whose code is not [ENOENT].  In every case all it
    does is that one [statSync]. *)
Theorem fileExists_outcomes w out w' :
  fileExists w = (out, w') →
  w' = with_trace (trace w ++ [EFs Stat]) w ∧
  match out with
  | Ok true => fault w Stat = None ∧ ∃ data, disk w = File data
  | Ok false =>
      fault w Stat = Some "ENOENT" ∨
      (fault w Stat = None ∧ (disk w = Missing ∨ disk w = Directory))
  | Throw err =>
      ∃ code, fault w Stat = Some code ∧ code ≠ "ENOENT" ∧
              err = SystemError code
  end.
Proof.
  rewrite fileExists_run. intros [= <- <-]. split; [done|].
  destruct (fault w Stat) as [code|].
  - destruct (String.eqb_spec code "ENOENT") as [->|Hne]; [by left|].
    by exists code.
  - destruct (disk w); eauto.
Qed.

(** X4. [loadProfile] returns [null] only when [fileExists] answers
    [false].  It returns a profile only when the file was read and holds
    JSON other than [null].  It throws in four cases and no other: a
    [statSync] error other than [ENOENT], any [readFileSync] error, text
    that is not JSON ([SyntaxError]), and the JSON text [null]
    ([TypeError] from the constructor). *)
Theorem loadProfile_outcomes w out w' :
  loadProfile w = (out, w') →
  match out with
  | Ok None => not_a_file w
  | Ok (Some r) =>
      r = length (heap w) ∧
      fault w Stat = None ∧ fault w Read = None ∧
      ∃ doc, disk w = File (Json doc) ∧ doc ≠ JNull
  | Throw err =>
      (∃ code, fault w Stat = Some code ∧ code ≠ "ENOENT" ∧
               err = SystemError code) ∨
      (fault w Stat = None ∧
       ∃ data, disk w = File data ∧
         ((∃ code, fault w Read = Some code ∧ err = SystemError code) ∨
          (fault w Read = None ∧ data = NotJson ∧ err = SyntaxError) ∨
          (fault w Read = None ∧ data = Json JNull ∧ err = TypeError)))
  end.
Proof.
  rewrite loadProfile_run. unfold load_outcome, not_a_file.
  destruct (fault w Stat) as [c1|].
  { destruct (String.eqb_spec c1 "ENOENT") as [->|Hne]; intros [= <- <-];
      [done|]. left. by exists c1. }
  destruct (disk w) as [|data|]; try (intros [= <- <-]; by auto).
  destruct (fault w Read) as [c2|].
  { intros [= <- <-]. right. split; [done|]. exists data. split; [done|].
    left. by exists c2. }
  destruct data as [doc|].
  2:{ intros [= <- <-]. right. split; [done|]. eexists. split; [done|].
      right. by left. }
  destruct doc; simpl; intros [= <- <-].
  all: try (repeat split; try done; eexists; by split).
  right. split; [done|]. eexists. split; [done|]. right. by right.
Qed.

(** X5. A profile file that holds JSON which is neither an object nor
    [null] (a number, a string, a boolean, an array) is not an error:
    [loadProfile] returns a profile all of whose fields are
    [undefined]. *)
Theorem loadProfile_non_object w (doc : json) :
  disk w = File (Json doc) →
  fault w Stat = None → fault w Read = None →
  doc ≠ JNull → (∀ m, doc ≠ JObj m) →
  ∃ w', loadProfile w = (Ok (Some (length (heap w))), w') ∧
        heap w' = heap w ++ [blank].
Proof.
  intros Hd Hst Hrd Hnull Hobj. rewrite loadProfile_run.
  unfold load_outcome. rewrite Hst, Hd, Hrd.
  destruct doc as [| | | | |m]; [done| | | | |by destruct (Hobj m)];
    simpl; by eexists.
Qed.

Lemma getUser_run w :
  getUser w =
    match currentProfile w with
    | Some r => (Ok (Some r), w)
    | None =>
        match loadProfile w with
        | (Ok loaded, w') => (Ok loaded, with_currentProfile loaded w')
        | (Throw err, w') => (Throw err, w')
        end
    end.
Proof.
  destruct (currentProfile w) as [r|] eqn:Hc.
  - by apply getUser_cached.
  - by apply getUser_empty.
Qed.

(** X6. [getUser] only reads: whatever it returns or throws, the profile
    file and the token store are as before, the only calls it makes are
    [statSync] and [readFileSync], and the objects that existed are
    unchanged.  With a profile cached it makes no call at all. *)
Theorem getUser_only_reads w out w' :
  getUser w = (out, w') →
  disk w' = disk w ∧ tokens w' = tokens w ∧
  (∃ evs, trace w' = trace w ++ evs ∧
          ∀ e, e ∈ evs → e = EFs Stat ∨ e = EFs Read) ∧
  (∀ r p, heap w !! r = Some p → heap w' !! r = Some p) ∧
  (is_Some (currentProfile w) → w' = w).
Proof.
  rewrite getUser_run. destruct (currentProfile w) as [r|] eqn:Hc.
  { intros [= <- <-]. repeat split; try done.
    exists []. split; [by rewrite app_nil_r|]. by intros e ?%elem_of_nil. }
  rewrite loadProfile_run.
  assert (∀ e, e ∈ (load_outcome w).2 → e = EFs Stat ∨ e = EFs Read)
    as Hevs.
  { unfold load_outcome.
    destruct (fault w Stat); [|destruct (disk w); [| |];
      [|destruct (fault w Read)|]]; simpl; intros e He;
      rewrite ?elem_of_cons, ?elem_of_nil in He; intuition. }
  destruct (load_outcome w) as [[[p|]|err] evs]; intros [= <- <-]; simpl.
  all: repeat split; try done; eauto.
  all: try by intros [? [=]].
  intros r p' Hr. by apply lookup_app_l_Some.
Qed.

(** X7. Every [loadProfile] that returns a profile returns a new object:
    its reference was not in use before, so it differs from every
    profile handed out earlier and from the one the next [loadProfile]
    returns. *)
Theorem loadProfile_new_object w r w' :
  loadProfile w = (Ok (Some r), w') →
  heap w !! r = None ∧
  is_Some (heap w' !! r) ∧
  ∀ r' w'', loadProfile w' = (Ok (Some r'), w'') → r' ≠ r.
Proof.
  rewrite loadProfile_run.
  destruct (load_outcome w) as [[[p|]|err] evs]; intros [= <- <-].
  split; [by apply lookup_ge_None_2|]. split.
  { simpl. rewrite lookup_app_r, Nat.sub_diag by done. by eexists. }
  intros r' w''. rewrite loadProfile_run.
  destruct (load_outcome _) as [[[p'|]|err'] evs']; intros [= <- <-].
  simpl. rewrite length_app. simpl. lia.
Qed.

(** ** [deleteUser] *)

(** X8. With nothing cached and no profile file to load, [deleteUser()]
    resolves and is a no-op: it asks nothing of the token store, unlinks
    nothing, and all it did was the [statSync] of its [getUser()]. *)
Theorem deleteUser_without_user w :
  currentProfile w = None → not_a_file w →
  ∃ w', deleteUser w = (Ok tt, w') ∧
        trace w' = trace w ++ [EFs Stat] ∧
        tokens w' = tokens w ∧ disk w' = disk w ∧
        currentProfile w' = None.
Proof.
  intros Hc Hno. rewrite deleteUser_run, getUser_run, Hc.
  rewrite (loadProfile_not_a_file _ Hno). by eexists.
Qed.

(** X9. After a [deleteUser()] that completed, on a system that refuses
    no call, a new process finds no user: its [getUser()] returns
    [null]. *)
Theorem deleteUser_then_new_process w w' :
  deleteUser w = (Ok tt, w') →
  (∀ c, fault w c = None) →
  ∃ w'', getUser (restart w') = (Ok None, w'').
Proof.
  intros Hdel Hfault.
  assert (not_a_file (restart w')) as Hno.
  { unfold not_a_file. simpl.
    rewrite deleteUser_run, getUser_run in Hdel.
    destruct (currentProfile w) as [r|] eqn:Hc.
    - pose proof (logout_frame _ _ _ _ Hdel) as (_ & _ & ->).
      rewrite Hfault.
      destruct (heap w !! r) as [p|] eqn:Hp.
      + rewrite (logout_run _ _ _ Hp) in Hdel.
        unfold unlink_or_absent in Hdel. rewrite Hfault in Hdel.
        destruct (store_remove _ _) as [[[]|err] s]; [|done].
        destruct (disk w); simpl in Hdel; [| |done];
          injection Hdel as <-; simpl; auto.
      + by rewrite (logout_dangling _ _ Hp) in Hdel.
    - rewrite loadProfile_run in Hdel.
      pose proof (eq_refl (load_outcome w)) as Hout.
      unfold load_outcome at 2 in Hout. rewrite Hfault in Hout.
      destruct (load_outcome w) as [[[p|]|err] evs]; [| |done].
      + pose proof (logout_frame _ _ _ _ Hdel) as (_ & _ & ->).
        simpl. rewrite Hfault.
        erewrite logout_run in Hdel
          by (simpl; by rewrite lookup_app_r, Nat.sub_diag).
        unfold unlink_or_absent in Hdel. simpl in Hdel.
        rewrite Hfault in Hdel.
        destruct (store_remove _ _) as [[[]|err] s]; [|done].
        destruct (disk w); simpl in Hdel; [| |done];
          injection Hdel as <-; simpl; auto.
      + injection Hdel as <-. simpl. rewrite Hfault.
        destruct (disk w) as [|data|]; auto.
        rewrite Hfault in Hout. by destruct data as [[]|]. }
  rewrite getUser_run. simpl. rewrite (loadProfile_not_a_file _ Hno).
  by eexists.
Qed.

(** ** [saveUser] *)



(** ** [setAccessToken] and the token getters *)

(** X12. [setAccessToken(token)] makes one call, [tokenStore.set] under
    the profile's [userName], and touches neither the profile file, nor
    the cache, nor any profile object; it resolves to the object it was
    called on when the store resolves and rejects with the store's error
    otherwise. *)
Theorem setAccessToken_only_stores w this p (token : value) out w' :
  heap w !! this = Some p →
  setAccessToken this token w = (out, w') →
  trace w' = trace w ++ [ETokenSet (userName p) token] ∧
  tokens w' = (store_set (userName p) token (tokens w)).2 ∧
  disk w' = disk w ∧ heap w' = heap w ∧
  currentProfile w' = currentProfile w ∧
  match (store_set (userName p) token (tokens w)).1 with
  | Ok _ => out = Ok this
  | Throw err => out = Throw err
  end.
Proof.
  intros Hp. rewrite (setAccessToken_run _ _ _ _ Hp).
  by destruct (store_set _ _ _) as [[[]|err] s]; intros [= <- <-].
Qed.

(** X13. The getters [accessToken] and [accessTokenId] ask the token
    store for the entry under [userName].  If the store resolves to
    [null] or [undefined] (no entry), or to an entry without
    [accessToken], both reject with a [TypeError]; if it resolves to an
    entry whose [accessToken] is an object, they return that object's
    [token] and [id].  The profile file is not touched. *)
Theorem token_getters w this p (entry : value) (s : store) :
  heap w !! this = Some p →
  store_get (userName p) (tokens w) = (Ok entry, s) →
  (disk (accessToken this w).2 = disk w ∧
   disk (accessTokenId this w).2 = disk w) ∧
  (entry = VNull ∨ entry = VUndefined →
   (accessToken this w).1 = Throw TypeError ∧
   (accessTokenId this w).1 = Throw TypeError) ∧
  (∀ o : object,
     entry = VObj o → o !! "accessToken" = None →
     (accessToken this w).1 = Throw TypeError ∧
     (accessTokenId this w).1 = Throw TypeError) ∧
  (∀ o t : object,
     entry = VObj o → o !! "accessToken" = Some (VObj t) →
     (accessToken this w).1 = Ok (get_prop t "token") ∧
     (accessTokenId this w).1 = Ok (get_prop t "id")).
Proof.
  intros Hp Hget. unfold accessToken, accessTokenId, member.
  unfold_calls. simpl. rewrite Hp. simpl. rewrite Hget. simpl.
  split; [|split; [|split]].
  - destruct entry as [| | | | | |o]; simpl; try done.
    unfold get_prop. by destruct (o !! "accessToken") as [[]|].
  - by intros [-> | ->].
  - intros o -> Ho. unfold get_prop. by rewrite Ho.
  - intros o t -> Ho. unfold get_prop. by rewrite Ho.
Qed.

(** ** What [save] writes *)

(** X14. The file [save] writes holds a JSON object with no member other
    than the six profile fields (so never a token), and a field that is
    [undefined] is left out of it rather than written as [null]. *)
Theorem save_document w this p w' :
  heap w !! this = Some p →
  save this w = (Ok this, w') →
  ∃ m : gmap string json,
    disk w' = File (Json (JObj m)) ∧
    (∀ k, is_Some (m !! k) → k ∈ saved_names) ∧
    (m !! "userId" = None ↔ userId p = VUndefined) ∧
    (m !! "userName" = None ↔ userName p = VUndefined) ∧
    (m !! "displayName" = None ↔ displayName p = VUndefined) ∧
    (m !! "email" = None ↔ email p = VUndefined) ∧
    (m !! "environment" = None ↔ environment p = VUndefined) ∧
    (m !! "defaultApp" = None ↔ defaultApp p = VUndefined).
Proof.
  intros Hp. rewrite (save_run _ _ _ Hp).
  destruct (fault w Mkdirp); [done|]. destruct (fault w Write); [done|].
  assert (∀ k, is_Some (saved_fields p !! k) → k ∈ saved_names) as Hdom.
  { intros k [v Hk]. destruct (decide (k ∈ saved_names)) as [|Hnot]; [done|].
    unfold saved_names in Hnot. rewrite !not_elem_of_cons in Hnot.
    destruct Hnot as (? & ? & ? & ? & ? & ? & _).
    unfold saved_fields in Hk. rewrite !lookup_insert_ne in Hk by done.
    by rewrite lookup_singleton_ne in Hk. }
  destruct (saved_fields_lookup p)
    as (Hid & Hname & Hdisplay & Hemail & Henv & Happ & _).
  assert (∀ k, omap SerializeJSONProperty (saved_fields p) !! k = None
               ↔ get_prop (saved_fields p) k = VUndefined) as Hnone.
  { intros k. rewrite lookup_omap. unfold get_prop.
    destruct (saved_fields p !! k) as [v|]; simpl; [|done].
    apply SerializeJSONProperty_None. }
  destruct (disk w); [| |done]; intros [= <-].
  all: exists (omap SerializeJSONProperty (saved_fields p)).
  all: split; [done|].
  all: split;
    [intros k [j Hj]; apply Hdom; rewrite lookup_omap in Hj;
     destruct (saved_fields p !! k); [by eexists|done]|].
  all: rewrite !Hnone, Hid, Hname, Hdisplay, Hemail, Henv, Happ; done.
Qed.

End Store.

End ProfileStoreMore.

(* ===================================================================== *)
(** * More scenarios                                                      *)
(* ===================================================================== *)

Module MoreScenarios.

Import ProfileStoreFacts ProfileStoreMore ToDefaultAppMore Scenarios.
Local Open Scope list_scope.

(** ["acme/myapp"] is parsed, and so is the identifier of the result. *)
Lemma toDefaultApp_identifier_is_input_witness :
  toDefaultApp "acme/myapp" = Some acme_myapp ∧
  identifier acme_myapp = "acme/myapp" ∧
  toDefaultApp (identifier acme_myapp) = Some acme_myapp.
Proof.
  split; [reflexivity|].
  apply (toDefaultApp_identifier_is_input "acme/myapp" acme_myapp).
  reflexivity.
Defined.


(** [fileExists] on [alice]'s file. *)
Lemma fileExists_outcomes_witness :
  (fileExists (process [] alice_file)).1 = Ok true ∧
  ∃ data, disk (process [] alice_file) = File data.
Proof.
  split; [by evaluate|].
  destruct (fileExists_outcomes (process [] alice_file) (Ok true)
              (fileExists (process [] alice_file)).2) as (_ & _ & Hfile);
    [by evaluate|exact Hfile].
Defined.

(** [loadProfile] on a file that is not JSON throws a [SyntaxError], and
    that is the third of the four cases. *)
Lemma loadProfile_outcomes_witness :
  let w := process [] (File NotJson) in
  (loadProfile w).1 = Throw SyntaxError ∧
  ((∃ code, fault w Stat = Some code ∧ code ≠ "ENOENT" ∧
            SyntaxError = SystemError code) ∨
   (fault w Stat = None ∧
    ∃ data, disk w = File data ∧
      ((∃ code, fault w Read = Some code ∧ SyntaxError = SystemError code) ∨
       (fault w Read = None ∧ data = NotJson ∧ SyntaxError = SyntaxError) ∨
       (fault w Read = None ∧ data = Json JNull ∧ SyntaxError = TypeError)))).
Proof.
  intros w. split; [by evaluate|].
  apply (loadProfile_outcomes w (Throw SyntaxError) (loadProfile w).2).
  by evaluate.
Defined.

(** A profile file holding [[]]. *)
Lemma loadProfile_non_object_witness :
  ∃ w', loadProfile (process [] (File (Json (JArr []))))
        = (Ok (Some 0%nat), w') ∧
        heap w' = [blank].
Proof.
  apply (loadProfile_non_object (process [] (File (Json (JArr []))))
           (JArr [])); try reflexivity; discriminate.
Defined.

(** [getUser()] on [alice]'s file leaves file and tokens alone. *)
Lemma getUser_only_reads_witness :
  let w := process [] alice_file in
  (getUser w).1 = Ok (Some 0%nat) ∧
  disk (getUser w).2 = alice_file ∧ tokens (getUser w).2 = ∅.
Proof.
  intros w.
  destruct (getUser_only_reads w (getUser w).1 (getUser w).2)
    as (Hdisk & Htokens & _); [by evaluate|].
  split; [by evaluate|]. split; [exact Hdisk|exact Htokens].
Defined.

(** Two [loadProfile]s of [alice]'s file give two objects. *)
Lemma loadProfile_new_object_witness :
  let w := process [] alice_file in
  let w' := (loadProfile w).2 in
  (loadProfile w).1 = Ok (Some 0%nat) ∧
  (loadProfile w').1 = Ok (Some 1%nat) ∧
  1%nat ≠ 0%nat.
Proof.
  intros w w'.
  destruct (loadProfile_new_object w 0 w') as (_ & _ & Hnext);
    [by evaluate|].
  split; [by evaluate|]. split; [by evaluate|].
  apply (Hnext 1%nat (loadProfile w').2). by evaluate.
Defined.

(** [deleteUser()] with no profile file. *)
Lemma deleteUser_without_user_witness :
  ∃ w', deleteUser (process [] Missing) = (Ok tt, w') ∧
        trace w' = [EFs Stat] ∧
        tokens w' = ∅ ∧ disk w' = Missing ∧ currentProfile w' = None.
Proof.
  apply (deleteUser_without_user (process [] Missing)); [reflexivity|].
  by left.
Defined.

(** [deleteUser()] of [alice], then a new process. *)
Lemma deleteUser_then_new_process_witness :
  let w' := (deleteUser (process [] alice_file)).2 in
  (deleteUser (process [] alice_file)).1 = Ok tt ∧
  ∃ w'', getUser (restart w') = (Ok None, w'').
Proof.
  intros w'. split; [by evaluate|].
  apply (deleteUser_then_new_process (process [] alice_file) w');
    [by evaluate|reflexivity].
Defined.




(** [setAccessToken] on [alice] with her file in place. *)
Lemma setAccessToken_only_stores_witness :
  let w := process [alice] alice_file in
  let w' := (setAccessToken 0 (VStr "secret") w).2 in
  (setAccessToken 0 (VStr "secret") w).1 = Ok 0%nat ∧
  trace w' = [ETokenSet (VStr "alice") (VStr "secret")] ∧
  disk w' = alice_file.
Proof.
  intros w w'.
  destruct (setAccessToken_only_stores w 0 alice (VStr "secret")
              (setAccessToken 0 (VStr "secret") w).1 w')
    as (Htrace & _ & Hdisk & _); [reflexivity|by evaluate|].
  split; [by evaluate|]. split; [exact Htrace|exact Hdisk].
Defined.

(** A token as the store keeps it. *)
Definition alice_token : object :=
  {[ "id" := VStr "t-1"; "token" := VStr "secret" ]}.

(** [alice] with her token in the store, and with an empty store. *)
Lemma token_getters_witness :
  let w :=
    @mkWorld memory_store [alice] None alice_file no_fault
      {[ "alice" := VObj alice_token ]} [] in
  (accessToken 0 w).1 = Ok (VStr "secret") ∧
  (accessTokenId 0 w).1 = Ok (VStr "t-1") ∧
  (accessToken 0 (process [alice] alice_file)).1 = Throw TypeError.
Proof.
  intros w.
  destruct (token_getters w 0 alice
              (VObj {[ "accessToken" := VObj alice_token ]}) (tokens w))
    as (_ & _ & _ & Hfound); [reflexivity|by evaluate|].
  destruct (Hfound {[ "accessToken" := VObj alice_token ]} alice_token)
    as [Htoken Hid]; [reflexivity|by evaluate|].
  split; [rewrite Htoken; by evaluate|].
  split; [rewrite Hid; by evaluate|].
  destruct (token_getters (process [alice] alice_file) 0 alice VNull ∅)
    as (_ & Hnone & _); [reflexivity|by evaluate|].
  by destruct Hnone as [? _]; [by left|].
Defined.

(** A profile without [defaultApp]: the file has five members. *)
Lemma save_document_witness :
  let w' := (save 0 (process [nameless] Missing)).2 in
  ∃ m : gmap string json,
    disk w' = File (Json (JObj m)) ∧
    m !! "defaultApp" = None ∧ m !! "userId" = Some (JStr "").
Proof.
  intros w'.
  destruct (save_document (process [nameless] Missing) 0 nameless w')
    as (m & Hdisk & _ & _ & _ & _ & _ & _ & Happ);
    [reflexivity|by evaluate|].
  exists m. split; [exact Hdisk|]. split; [by apply Happ|].
  assert (m = omap SerializeJSONProperty (saved_fields nameless)) as ->.
  { assert (disk w'
            = File (Json (JObj (omap SerializeJSONProperty
                                  (saved_fields nameless))))) as Hd
      by (by evaluate).
    congruence. }
  by evaluate.
Defined.

End MoreScenarios.
